(** * Shallow embedding of [CasinoAnalyzer] (src/Hacker.py).

    Modelling choices:
    - the history is the Python [List[str]] as [list string]; nothing in the
      class restricts its elements to "C", "V", "E";
    - Python floats (strengths, ratios, confidences) are exact rationals [Q];
      every float quantity of the code is a quotient of small integers and is
      only compared against decimal literals, where correctly rounded float
      division and exact division agree;
    - a pattern dict is a record: the keys every pattern has are plain fields,
      kind-specific keys are [option] fields ([None] = key absent);
    - human-readable texts (descriptions, factors, signs, reasoning) keep the
      fixed part of the source text, transliterated to ASCII; interpolated
      values are left out (no claim depends on them). *)

From Stdlib Require Import String Ascii List Arith Bool Lia ZArith QArith.
Import ListNotations.
Open Scope nat_scope.
Open Scope string_scope.

Module Hacker.

(** ** Python helpers *)

Definition history := list string.

(** [r != 'E'] *)
Definition is_tie (r : string) : bool := String.eqb r "E".

(** [[r for r in results if r != 'E']] *)
Definition non_empate (results : history) : list string :=
  filter (fun r => negb (is_tie r)) results.

(** [l[-n:]] *)
Definition last_n {A} (n : nat) (l : list A) : list A := skipn (length l - n) l.

(** [l[a:b]] for [0 <= a <= b] *)
Definition slice {A} (a b : nat) (l : list A) : list A := firstn (b - a) (skipn a l).

(** [l[i]] on an index known to be in range *)
Definition nth_s (l : list string) (i : nat) : string := nth i l "".

(** [l.count(x)] *)
Definition count_s (x : string) (l : list string) : nat :=
  length (filter (String.eqb x) l).

Definition qnat (n : nat) : Q := inject_Z (Z.of_nat n).

(** [a / b] on two ints, as a float *)
Definition qdiv (a b : nat) : Q := qnat a / qnat b.

Definition qlt_bool (a b : Q) : bool := negb (Qle_bool b a).

(** Python's [min(a, b)]: [a] unless [b < a]. *)
Definition qmin (a b : Q) : Q := if qlt_bool b a then b else a.

(** [collections.Counter(l)]: counts in first-seen (insertion) order. *)
Fixpoint counter_add (k : string) (c : list (string * nat)) : list (string * nat) :=
  match c with
  | [] => [(k, 1)]
  | (k', n) :: t => if String.eqb k k' then (k', S n) :: t else (k', n) :: counter_add k t
  end.

Definition Counter (l : list string) : list (string * nat) :=
  fold_left (fun c k => counter_add k c) l [].

(** [max(items, key=count)]: the first item of maximal count
    (also what [Counter.most_common(1)] returns). *)
Fixpoint max_by_count (best : string * nat) (l : list (string * nat)) : string * nat :=
  match l with
  | [] => best
  | x :: t => if Nat.ltb (snd best) (snd x) then max_by_count x t else max_by_count best t
  end.

(** ** Pattern dicts *)

Record Pattern := mkPattern {
  ptype : string;
  strength : Q;
  prisk : string;
  predictability : Q;
  cycle_size : option nat;
  ppattern : option string;
  repetitions : option nat;
  window_size : option nat;
  imbalance : option nat;
  favored_color : option string;
  position : option nat;
  sequence_color : option string;
  sequence_length : option nat;
  from_color : option string;
  to_color : option string
}.

(** [pattern.get(key, 0)] *)
Definition get0 (o : option nat) : nat := match o with Some n => n | None => 0 end.

(** ** analyze_micro_patterns *)

(** [sum(1 for i in range(0, 6, 2) if i + 1 < 6 and last6[i] == last6[i + 1]
    and last6[i] != 'E')] *)
Definition double_pattern_count (results : history) : nat :=
  let last6 := last_n 6 results in
  length (filter (fun i => Nat.ltb (i + 1) 6
                           && String.eqb (nth_s last6 i) (nth_s last6 (i + 1))
                           && negb (String.eqb (nth_s last6 i) "E"))
                 [0; 2; 4]).

(** [sum(1 for i in range(1, min(6, len(last8_non_empate)))
    if last8_non_empate[i] != last8_non_empate[i-1])] *)
Definition micro_alternations (last8_non_empate : list string) : nat :=
  length (filter (fun i => negb (String.eqb (nth_s last8_non_empate i)
                                            (nth_s last8_non_empate (i - 1))))
                 (seq 1 (Nat.min 6 (length last8_non_empate) - 1))).

Definition analyze_micro_patterns (results : history) : list Pattern :=
  if Nat.ltb (length results) 6 then [] else
  let dpc := double_pattern_count results in
  let p1 :=
    if Nat.leb 2 dpc then
      [mkPattern "micro_double_pattern" (qdiv dpc 3)
         (if Nat.eqb dpc 3 then "critical" else "high") (qnat 85)
         None None None None None None None None None None None]
    else [] in
  let last8_non_empate := last_n 8 (non_empate results) in
  let p2 :=
    if Nat.leb 6 (length last8_non_empate) then
      let ma := micro_alternations last8_non_empate in
      if Nat.leb 4 ma then
        [mkPattern "micro_alternation" (qdiv ma 5)
           (if Nat.eqb ma 5 then "critical" else "high") (qnat 90)
           None None None None None None None None None None None]
      else []
    else [] in
  p1 ++ p2.

(** ** detect_hidden_cycles *)

(** [[''.join(non_empate[i:i+cycle_size])
      for i in range(len(non_empate) - cycle_size + 1)]] *)
Definition cycles_of (non_empate : list string) (cycle_size : nat) : list string :=
  map (fun i => String.concat "" (slice i (i + cycle_size) non_empate))
      (seq 0 (length non_empate - cycle_size + 1)).

(** One iteration of [for cycle_size in range(3, 7)]. *)
Definition hidden_cycle_for (non_empate : list string) (cycle_size : nat) : list Pattern :=
  let cycle_counts := Counter (cycles_of non_empate cycle_size) in
  let repeated := filter (fun cc => Nat.leb 2 (snd cc)) cycle_counts in
  match repeated with
  | [] => []
  | r0 :: rs =>
      let (most_repeated, count) := max_by_count r0 rs in
      [mkPattern "hidden_cycle" (qmin (qdiv count 3) 1)
         (if Nat.leb 3 count then "high" else "medium") (qnat (70 + count * 5))
         (Some cycle_size) (Some most_repeated) (Some count)
         None None None None None None None None]
  end.

Definition detect_hidden_cycles (results : history) : list Pattern :=
  let ne := non_empate results in
  if Nat.ltb (length ne) 12 then []
  else flat_map (hidden_cycle_for ne) [3; 4; 5; 6].

(** ** analyze_compensation_patterns *)

Definition windows : list nat := [12; 15; 18].

(** [abs(c_count - v_count)] on ints *)
Definition abs_diff (a b : nat) : nat := Nat.max (a - b) (b - a).

(** One iteration of [for window_size in windows]. *)
Definition compensation_window (non_empate : list string) (window_size : nat) : list Pattern :=
  if Nat.leb window_size (length non_empate) then
    let window := last_n window_size non_empate in
    let c_count := count_s "C" window in
    let v_count := count_s "V" window in
    let imb := abs_diff c_count v_count in
    let balance_ratio := qdiv imb window_size in
    (if qlt_bool balance_ratio (1 # 10) && Nat.leb 15 window_size then
       [mkPattern "artificial_balance" (1 - balance_ratio)%Q "high" (qnat 85)
          None None None (Some window_size) None None None None None None None]
     else [])
    ++
    (if qlt_bool (4 # 10) balance_ratio then
       let underrepresented := if Nat.ltb c_count v_count then "C" else "V" in
       [mkPattern "compensation_pending" balance_ratio "medium"
          (qnat 60 + balance_ratio * qnat 20)%Q
          None None None (Some window_size) (Some imb) (Some underrepresented)
          None None None None None]
     else [])
  else [].

Definition analyze_compensation_patterns (results : history) : list Pattern :=
  let ne := non_empate results in
  if Nat.ltb (length ne) 20 then []
  else flat_map (compensation_window ne) windows.

(** ** analyze_strategic_ties *)

Fixpoint run_of (color : string) (l : list string) : nat :=
  match l with
  | [] => 0
  | x :: t => if String.eqb x color then S (run_of color t) else 0
  end.

(** [get_sequence_length]: length of the run of [seq[-1]] ending [seq]. *)
Definition get_sequence_length (sq : list string) : nat :=
  match rev sq with
  | [] => 0
  | color :: rest => 1 + run_of color rest
  end.

(** [seq[-1]], [seq[-2]] on lists known to be long enough *)
Definition last1 (l : list string) : string := nth_s l (length l - 1).
Definition last2 (l : list string) : string := nth_s l (length l - 2).

(** One iteration of [for tie_pos in tie_positions]. *)
Definition strategic_ties_at (results : history) (tie_pos : nat) : list Pattern :=
  if Nat.leb 3 tie_pos then
    let before := slice (tie_pos - 3) tie_pos results in
    let after := slice (tie_pos + 1) (tie_pos + 4) results in
    (if Nat.leb 2 (length before) && String.eqb (last1 before) (last2 before)
        && negb (String.eqb (last1 before) "E") then
       [mkPattern "strategic_tie_after_sequence" (7 # 10) "high" (qnat 75)
          None None None None None None (Some tie_pos) (Some (last1 before))
          (Some (get_sequence_length before)) None None]
     else [])
    ++
    (if Nat.leb 2 (length after) && Nat.leb 1 (length before)
        && negb (String.eqb (last1 before) "E") && negb (String.eqb (nth_s after 0) "E") then
       let before_color := last1 before in
       let after_color := nth_s after 0 in
       if negb (String.eqb before_color after_color) then
         [mkPattern "strategic_tie_before_reversal" (8 # 10) "high" (qnat 80)
            None None None None None None (Some tie_pos) None None
            (Some before_color) (Some after_color)]
       else []
     else [])
  else [].

Definition analyze_strategic_ties (results : history) : list Pattern :=
  if Nat.ltb (length results) 8 then []
  else
    let tie_positions := filter (fun i => String.eqb (nth_s results i) "E")
                                (seq 0 (length results)) in
    flat_map (strategic_ties_at results) tie_positions.

(** ** assess_risk *)

Record RiskAssessment := mkRisk {
  rlevel : string;
  rscore : nat;
  factors : list string
}.

(** One iteration of the [for pattern in patterns] loop of [assess_risk]. *)
Definition risk_step (acc : nat * list string) (p : Pattern) : nat * list string :=
  let (risk_score, risk_factors) := acc in
  if String.eqb (ptype p) "micro_double_pattern" && Qle_bool (8 # 10) (strength p) then
    (risk_score + 70, app risk_factors ["Padrao 2x2 critico detectado"])
  else if String.eqb (ptype p) "micro_alternation" && Qle_bool (8 # 10) (strength p) then
    (risk_score + 65, app risk_factors ["Alternacao artificial critica"])
  else if String.eqb (ptype p) "hidden_cycle" && Nat.leb 3 (get0 (repetitions p)) then
    (risk_score + 60, app risk_factors ["Ciclo programado ativo"])
  else if String.eqb (ptype p) "artificial_balance" then
    (risk_score + 55, app risk_factors ["Equilibrio artificial forcado"])
  else if String.eqb (ptype p) "intentional_break" then
    (risk_score + 50, app risk_factors ["Quebra intencional detectada"])
  else if String.prefix "strategic_tie" (ptype p) then
    (risk_score + 40, app risk_factors ["Empate estrategico detectado"])
  else (risk_score, risk_factors).

Definition risk_level (risk_score : nat) : string :=
  if Nat.leb 80 risk_score then "critical"
  else if Nat.leb 55 risk_score then "high"
  else if Nat.leb 30 risk_score then "medium"
  else "low".

Definition assess_risk (patterns : list Pattern) : RiskAssessment :=
  let (risk_score, risk_factors) := fold_left risk_step patterns (0, []) in
  mkRisk (risk_level risk_score) (Nat.min risk_score 100) risk_factors.

(** ** detect_manipulation *)

Record ManipulationAssessment := mkManipulation {
  mlevel : string;
  mscore : nat;
  signs : list string
}.

Definition manipulation_step (acc : nat * list string) (p : Pattern) : nat * list string :=
  let (manipulation_score, manipulation_signs) := acc in
  let pr := predictability p in
  if Qle_bool (qnat 90) pr then
    (manipulation_score + 80, app manipulation_signs ["Padrao altamente artificial"])
  else if Qle_bool (qnat 80) pr then
    (manipulation_score + 60, app manipulation_signs ["Padrao programado"])
  else if Qle_bool (qnat 70) pr then
    (manipulation_score + 40, app manipulation_signs ["Padrao suspeito"])
  else (manipulation_score, manipulation_signs).

Definition manipulation_level (manipulation_score : nat) : string :=
  if Nat.leb 80 manipulation_score then "critical"
  else if Nat.leb 60 manipulation_score then "high"
  else if Nat.leb 35 manipulation_score then "medium"
  else "low".

(** The [risk] argument is unused by the source as well. *)
Definition detect_manipulation (patterns : list Pattern) (risk : RiskAssessment)
  : ManipulationAssessment :=
  let (manipulation_score, manipulation_signs) :=
    fold_left manipulation_step patterns (0, []) in
  mkManipulation (manipulation_level manipulation_score)
    (Nat.min manipulation_score 100) manipulation_signs.

(** ** predict_next_in_cycle *)

(** [pattern[i]] as a one-character string *)
Definition char_at (s : string) (i : nat) : option string :=
  match String.get i s with
  | Some ch => Some (String ch EmptyString)
  | None => None
  end.

(** The scan [for i in range(len(non_empate)): ... break]: returns the index
    at which it stops; the source discards it. *)
Fixpoint scan_cycle (pattern : string) (cycle_len i : nat) (l : list string) : nat :=
  match l with
  | [] => i
  | r :: t =>
      match char_at pattern (i mod cycle_len) with
      | Some expected =>
          if negb (String.eqb r expected) then i
          else scan_cycle pattern cycle_len (S i) t
      | None => i
      end
  end.

Definition predict_next_in_cycle (results : history) (pattern : string) : option string :=
  let ne := non_empate results in
  if String.eqb pattern "" || (match ne with [] => true | _ => false end) then None
  else
    let cycle_len := String.length pattern in
    let _ := scan_cycle pattern cycle_len 0 ne in
    let pos := length ne mod cycle_len in
    if Nat.ltb pos cycle_len then char_at pattern pos else None.

(** ** make_prediction *)

Record Prediction := mkPrediction {
  color : option string;
  confidence : Q;
  reasoning : string;
  strategy : string
}.

Definition prediction0 : Prediction :=
  mkPrediction None 0 "" "AGUARDAR MELHORES CONDICOES".

Definition stop_prediction : Prediction :=
  mkPrediction None 0 "CONDICOES CRITICAS - Manipulacao maxima detectada"
    "PARAR COMPLETAMENTE".

(** Branch 5: bet on the most frequent non-tie value. *)
Definition fallback_prediction (results : history) : Prediction :=
  let ne := non_empate results in
  match ne with
  | [] => prediction0
  | _ =>
      match Counter ne with
      | [] => prediction0
      | x :: rest =>
          let (most_common_color, count) := max_by_count x rest in
          let conf := (qdiv count (length ne) * qnat 100)%Q in
          mkPrediction (Some most_common_color) (qmin conf (qnat 75))
            "Aposta baseada em frequencia historica" "APOSTAR NA PRINCIPAL COR"
      end
  end.

Definition both_low (risk : RiskAssessment) (manipulation : ManipulationAssessment) : bool :=
  String.eqb (rlevel risk) "low" && String.eqb (mlevel manipulation) "low".

Definition is_cycle_candidate (p : Pattern) : bool :=
  String.eqb (ptype p) "hidden_cycle" && Nat.leb 2 (get0 (repetitions p)).

(** Branch 4 (cycle), [None] when it does not return. *)
Definition cycle_prediction (results : history) (patterns : list Pattern)
  (risk : RiskAssessment) (manipulation : ManipulationAssessment) : option Prediction :=
  match find is_cycle_candidate patterns with
  | Some cycle_pattern =>
      if both_low risk manipulation then
        match ppattern cycle_pattern with
        | Some pat =>
            match predict_next_in_cycle results pat with
            | Some next_color =>
                if String.eqb next_color "" then None
                else Some (mkPrediction (Some next_color)
                             (qmin (qnat 70) (qnat (50 + get0 (repetitions cycle_pattern) * 5)))
                             "Ciclo detectado" "SEGUIR CICLO")
            | None => None
            end
        | None => None (* a [KeyError] in the source; detectors always set it *)
        end
      else None
  | None => None
  end.

Definition make_prediction (results : history) (patterns : list Pattern)
  (risk : RiskAssessment) (manipulation : ManipulationAssessment) : Prediction :=
  if String.eqb (rlevel risk) "critical" || String.eqb (mlevel manipulation) "critical" then
    stop_prediction
  else if String.eqb (mlevel manipulation) "high" then
    mkPrediction None 0 "Manipulacao alta - Evitar apostas" "AGUARDAR NORMALIZACAO"
  else
    let compensation :=
      match find (fun p => String.eqb (ptype p) "compensation_pending") patterns with
      | Some compensation_pattern =>
          if both_low risk manipulation then
            Some (mkPrediction (favored_color compensation_pattern)
                    (qmin (qnat 75) (qnat 55 + strength compensation_pattern * qnat 20)%Q)
                    "Compensacao estatistica esperada" "APOSTAR COMPENSACAO")
          else None
      | None => None
      end in
    match compensation with
    | Some pr => pr
    | None =>
        match cycle_prediction results patterns risk manipulation with
        | Some pr => pr
        | None => fallback_prediction results
        end
    end.

(** ** The pipeline of [main] *)

Record Analysis := mkAnalysis {
  a_patterns : list Pattern;
  a_risk : RiskAssessment;
  a_manipulation : ManipulationAssessment;
  a_prediction : Prediction
}.

Definition analyze (results : history) : Analysis :=
  let patterns := (analyze_micro_patterns results ++ detect_hidden_cycles results
                   ++ analyze_compensation_patterns results ++ analyze_strategic_ties results)%list in
  let risk := assess_risk patterns in
  let manipulation := detect_manipulation patterns risk in
  mkAnalysis patterns risk manipulation (make_prediction results patterns risk manipulation).

(** The dominant share used by branch 5: count of the most common non-tie
    value over the number of non-tie values. *)
Definition dominant_share (results : history) : Q :=
  let ne := non_empate results in
  match Counter ne with
  | [] => 0
  | x :: rest => qdiv (snd (max_by_count x rest)) (length ne)
  end.

(** The spec's reading of the micro-alternation count: the 5 adjacent pairs
    of the LAST 6 of the up-to-8 last non-tie values. *)
Definition micro_alternations_last6_spec (last8_non_empate : list string) : nat :=
  micro_alternations (last_n 6 last8_non_empate).

(** ** main: the session history and the buttons *)

(** The buttons clicked in one run of the script (in Streamlit a [button]
    call returns [True] on the run that follows its click). *)
Record Buttons := mkButtons {
  btn_c : bool;
  btn_v : bool;
  btn_e : bool;
  btn_clear : bool;
  btn_undo : bool
}.

(** [if 'history' not in st.session_state: st.session_state.history = []] *)
Definition session_history (session : option history) : history :=
  match session with
  | Some h => h
  | None => []
  end.

(** The updates of [st.session_state.history] in [main], in source order. *)
Definition main_history (h : history) (b : Buttons) : history :=
  let h1 := if btn_c b then (h ++ ["C"])%list else h in
  let h2 := if btn_v b then (h1 ++ ["V"])%list else h1 in
  let h3 := if btn_e b then (h2 ++ ["E"])%list else h2 in
  let h4 := if btn_clear b then [] else h3 in
  if btn_undo b then
    match h4 with
    | [] => h4
    | _ => removelast h4
    end
  else h4.

(** One run of [main]: the new session history, and the analysis it displays
    ([main] returns before analysing an empty history). *)
Definition main_run (session : option history) (b : Buttons) : history * option Analysis :=
  let h := main_history (session_history session) b in
  match h with
  | [] => (h, None)
  | _ => (h, Some (analyze h))
  end.

(** The session history after a sequence of runs from a fresh session. *)
Definition history_after (runs : list Buttons) : history :=
  fold_left main_history runs (session_history None).

Definition press_c : Buttons := mkButtons true false false false false.
Definition press_v : Buttons := mkButtons false true false false false.
Definition press_e : Buttons := mkButtons false false true false false.
Definition press_undo : Buttons := mkButtons false false false false true.

End Hacker.

Import Hacker.

(** ** General lemmas *)

Lemma qlt_bool_true (a b : Q) : qlt_bool a b = true -> (a < b)%Q.
Proof.
  unfold qlt_bool. intros H. apply negb_true_iff in H.
  apply Qnot_le_lt. intros Hle. apply Qle_bool_iff in Hle. congruence.
Qed.

Lemma qlt_bool_false (a b : Q) : qlt_bool a b = false -> (b <= a)%Q.
Proof.
  unfold qlt_bool. intros H. apply negb_false_iff in H. apply Qle_bool_iff; exact H.
Qed.

Lemma in_flat_map_windows (ne : list string) (p : Pattern) (ws : list nat) :
  In p (flat_map (compensation_window ne) ws) ->
  exists w, In w ws /\ In p (compensation_window ne w).
Proof.
  intros H. apply in_flat_map in H. exact H.
Qed.

Lemma compensation_window_size (ne : list string) (w : nat) (p : Pattern) :
  In p (compensation_window ne w) -> window_size p = Some w.
Proof.
  unfold compensation_window. intros H.
  destruct (Nat.leb w (length ne)); [|contradiction].
  apply in_app_or in H. destruct H as [H|H].
  - destruct (_ && _); simpl in H; [|contradiction].
    destruct H as [H|[]]; subst; reflexivity.
  - destruct (qlt_bool _ _); simpl in H; [|contradiction].
    destruct H as [H|[]]; subst; reflexivity.
Qed.

Lemma compensation_in_window (h : history) (p : Pattern) (w : nat) :
  In p (analyze_compensation_patterns h) -> window_size p = Some w ->
  In p (compensation_window (non_empate h) w).
Proof.
  unfold analyze_compensation_patterns. intros H Hw.
  destruct (Nat.ltb _ 20); [contradiction|].
  apply in_flat_map_windows in H. destruct H as [w' [_ Hin]].
  pose proof (compensation_window_size _ _ _ Hin) as Hw'.
  rewrite Hw in Hw'. injection Hw' as ->. exact Hin.
Qed.

Lemma manipulation_step_mono (acc : nat * list string) (p : Pattern) :
  fst acc <= fst (manipulation_step acc p).
Proof.
  destruct acc as [s l]. unfold manipulation_step.
  destruct (Qle_bool _ _); [simpl; lia|].
  destruct (Qle_bool _ _); [simpl; lia|].
  destruct (Qle_bool _ _); simpl; lia.
Qed.

Lemma manipulation_fold_mono (ps : list Pattern) (acc : nat * list string) :
  fst acc <= fst (fold_left manipulation_step ps acc).
Proof.
  revert acc. induction ps as [|p ps IH]; intros acc; simpl; [lia|].
  specialize (IH (manipulation_step acc p)).
  pose proof (manipulation_step_mono acc p). lia.
Qed.

Lemma manipulation_fold_high (ps : list Pattern) (acc : nat * list string) (p : Pattern) :
  In p ps -> Qle_bool (qnat 90) (predictability p) = true ->
  fst acc + 80 <= fst (fold_left manipulation_step ps acc).
Proof.
  revert acc. induction ps as [|q ps IH]; intros [s l] Hin Hp; [contradiction|].
  simpl. destruct Hin as [->|Hin].
  - pose proof (manipulation_fold_mono ps (manipulation_step (s, l) p)) as M.
    unfold manipulation_step in M at 1. rewrite Hp in M. simpl in M. simpl. lia.
  - specialize (IH (manipulation_step (s, l) q) Hin Hp).
    pose proof (manipulation_step_mono (s, l) q) as M. simpl in *. lia.
Qed.

Lemma micro_alternation_predictability (h : history) (p : Pattern) :
  In p (analyze_micro_patterns h) -> ptype p = "micro_alternation" ->
  predictability p = qnat 90.
Proof.
  unfold analyze_micro_patterns. intros H Ht.
  destruct (Nat.ltb _ 6); [contradiction|].
  apply in_app_or in H. destruct H as [H|H].
  - destruct (Nat.leb 2 _); simpl in H; [|contradiction].
    destruct H as [H|[]]; subst; discriminate.
  - destruct (Nat.leb 6 _); [|contradiction].
    destruct (Nat.leb 4 _); simpl in H; [|contradiction].
    destruct H as [H|[]]; subst; reflexivity.
Qed.

Lemma get_in_range (s : string) (n : nat) :
  n < String.length s -> exists c, String.get n s = Some c.
Proof.
  revert n. induction s as [|a s IH]; intros n Hn; simpl in Hn; [lia|].
  destruct n as [|n]; simpl; [exists a; reflexivity|]. apply IH. lia.
Qed.

Lemma predict_next_in_cycle_eq (h : history) (pat : string) :
  pat <> "" -> non_empate h <> [] ->
  predict_next_in_cycle h pat
  = char_at pat (length (non_empate h) mod String.length pat).
Proof.
  intros Hp Hn. unfold predict_next_in_cycle.
  assert (Hpf : String.eqb pat "" = false) by (apply String.eqb_neq; exact Hp).
  rewrite Hpf. simpl.
  destruct (non_empate h) as [|r t] eqn:E; [congruence|]. simpl orb. cbv zeta.
  assert (L : 0 < String.length pat) by (destruct pat; [congruence|simpl; lia]).
  pose proof (Nat.mod_upper_bound (length (r :: t)) (String.length pat)) as M.
  assert (Hlt : Nat.ltb (length (r :: t) mod String.length pat) (String.length pat) = true)
    by (apply Nat.ltb_lt; apply M; lia).
  rewrite Hlt. reflexivity.
Qed.

Lemma fallback_confidence (h : history) :
  confidence (fallback_prediction h) = qmin (dominant_share h * qnat 100) (qnat 75)
  \/ (Counter (non_empate h) = [] /\ confidence (fallback_prediction h) = 0%Q).
Proof.
  unfold fallback_prediction, dominant_share.
  destruct (non_empate h) as [|r t].
  - right. simpl. auto.
  - destruct (Counter (r :: t)) as [|x rest]; [right; auto|].
    left. destruct (max_by_count x rest) as [c n]. reflexivity.
Qed.

Lemma counter_add_nonempty (k : string) (c : list (string * nat)) : counter_add k c <> [].
Proof. destruct c as [|[k' n] t]; simpl; [discriminate|]. destruct (String.eqb k k'); discriminate. Qed.

Lemma counter_fold_nonempty (l : list string) (c : list (string * nat)) :
  c <> [] -> fold_left (fun c k => counter_add k c) l c <> [].
Proof.
  revert c. induction l as [|k l IH]; intros c Hc; simpl; [exact Hc|].
  apply IH, counter_add_nonempty.
Qed.

Lemma Counter_nonempty (l : list string) : l <> [] -> Counter l <> [].
Proof.
  destruct l as [|k l]; [congruence|]. intros _. unfold Counter. simpl.
  apply counter_fold_nonempty. discriminate.
Qed.

Lemma qmin_75_mono (a b : Q) : (a <= b)%Q -> (qmin a (qnat 75) <= qmin b (qnat 75))%Q.
Proof.
  unfold qmin. intros Hab.
  destruct (qlt_bool (qnat 75) a) eqn:Ea; destruct (qlt_bool (qnat 75) b) eqn:Eb.
  - apply Qle_refl.
  - apply qlt_bool_true in Ea. apply qlt_bool_false in Eb.
    exfalso. apply (Qlt_not_le _ _ Ea). eapply Qle_trans; eauto.
  - apply qlt_bool_false in Ea. exact Ea.
  - exact Hab.
Qed.

Lemma qmin_75_strict (a b : Q) :
  (a < b)%Q -> (a < qnat 75)%Q -> (qmin a (qnat 75) < qmin b (qnat 75))%Q.
Proof.
  unfold qmin. intros Hab Ha.
  destruct (qlt_bool (qnat 75) a) eqn:Ea.
  - apply qlt_bool_true in Ea. exfalso. apply (Qlt_not_le _ _ Ea). apply Qlt_le_weak, Ha.
  - destruct (qlt_bool (qnat 75) b); assumption.
Qed.

Lemma qmin_75_sat (a : Q) : (qnat 75 <= a)%Q -> (qmin a (qnat 75) == qnat 75)%Q.
Proof.
  unfold qmin. intros H.
  destruct (qlt_bool (qnat 75) a) eqn:E; [reflexivity|].
  apply qlt_bool_false in E. apply Qle_antisym; assumption.
Qed.

Lemma critical_stop (h : history) (ps : list Pattern)
  (risk : RiskAssessment) (manipulation : ManipulationAssessment) :
  rlevel risk = "critical" \/ mlevel manipulation = "critical" ->
  make_prediction h ps risk manipulation = stop_prediction.
Proof.
  intros H. unfold make_prediction.
  destruct H as [H|H]; rewrite H; simpl; [reflexivity|].
  rewrite orb_true_r. reflexivity.
Qed.

(** ** Claims *)

Definition h_c1 : history := ["C"; "V"; "C"; "V"; "C"; "V"; "V"; "V"].

(** C1 (code_bug): on [C,V,C,V,C,V,V,V] the last 6 non-tie values
    [C,V,C,V,V,V] have only 3 differing adjacent pairs, so the claim says no
    micro_alternation; the code counts over the FIRST 6 of the last 8
    ([C,V,C,V,C,V]: 5 differences) and emits a critical micro_alternation. *)
Theorem c1_micro_alternation_first6 :
  micro_alternations_last6_spec (last_n 8 (non_empate h_c1)) = 3
  /\ micro_alternations (last_n 8 (non_empate h_c1)) = 5
  /\ map (fun p => (ptype p, prisk p)) (analyze_micro_patterns h_c1)
     = [("micro_alternation", "critical")].
Proof. vm_compute. repeat split. Qed.

Definition h_c2 : history :=
  ["C"; "C"; "V"; "V"; "E"; "C"; "C"; "V"; "V"; "C"; "V"; "V"].

(** C2 (counterexample): for the scenario history no micro_double_pattern
    is emitted. *)
Lemma c2_no_micro_double :
  ~ (exists p, In p (analyze_micro_patterns h_c2) /\ ptype p = "micro_double_pattern").
Proof. vm_compute. intros [p [[] _]]. Qed.

(** C2 (amended): for the scenario history the last 6 values are
    [C,V,V,C,V,V]; only the pair (V,V) is equal and non-tie, so
    double_pattern_count = 1 and MicroPatternDetector returns no pattern. *)
Theorem c2_scenario_amended :
  last_n 6 h_c2 = ["C"; "V"; "V"; "C"; "V"; "V"]
  /\ double_pattern_count h_c2 = 1
  /\ analyze_micro_patterns h_c2 = [].
Proof. vm_compute. repeat split. Qed.

Definition h_c3a : history := ["C"; "C"; "C"; "C"; "V"].
Definition h_c3b : history := ["C"; "C"; "C"; "C"; "C"].

(** C3 (counterexample): both histories reach the fallback branch (no
    pattern), the dominant share is 4/5 in the first and 1 in the second,
    yet both confidences are 75: not strictly larger. *)
Lemma c3_confidence_capped :
  a_patterns (analyze h_c3a) = [] /\ a_patterns (analyze h_c3b) = []
  /\ strategy (a_prediction (analyze h_c3a)) = "APOSTAR NA PRINCIPAL COR"
  /\ strategy (a_prediction (analyze h_c3b)) = "APOSTAR NA PRINCIPAL COR"
  /\ (dominant_share h_c3a < dominant_share h_c3b)%Q
  /\ ~ (confidence (a_prediction (analyze h_c3a)) < confidence (a_prediction (analyze h_c3b)))%Q.
Proof.
  vm_compute. repeat split; try reflexivity.
  intros H. vm_compute in H. discriminate.
Qed.

(** C3 (amended): in the fallback branch the confidence is
    min(100*share, 75), where share is the dominant non-tie value's share of
    the non-tie values; it is non-decreasing in the share, strictly
    increasing while 100*share is below the cap 75, and equal to 75 for
    every share with 100*share at or above the cap. *)
Theorem c3_fallback_monotone (h1 h2 : history) :
  non_empate h1 <> [] -> non_empate h2 <> [] ->
  confidence (fallback_prediction h1) = qmin (dominant_share h1 * qnat 100) (qnat 75)
  /\ confidence (fallback_prediction h2) = qmin (dominant_share h2 * qnat 100) (qnat 75)
  /\ ((dominant_share h1 <= dominant_share h2)%Q ->
      (confidence (fallback_prediction h1) <= confidence (fallback_prediction h2))%Q)
  /\ ((dominant_share h1 < dominant_share h2)%Q ->
      (dominant_share h1 * qnat 100 < qnat 75)%Q ->
      (confidence (fallback_prediction h1) < confidence (fallback_prediction h2))%Q)
  /\ ((qnat 75 <= dominant_share h1 * qnat 100)%Q ->
      (qnat 75 <= dominant_share h2 * qnat 100)%Q ->
      (confidence (fallback_prediction h1) == qnat 75)%Q
      /\ (confidence (fallback_prediction h2) == qnat 75)%Q).
Proof.
  intros N1 N2.
  destruct (fallback_confidence h1) as [E1|[C1 _]];
    [|exfalso; exact (Counter_nonempty _ N1 C1)].
  destruct (fallback_confidence h2) as [E2|[C2 _]];
    [|exfalso; exact (Counter_nonempty _ N2 C2)].
  split; [exact E1|]. split; [exact E2|].
  rewrite E1, E2. split; [|split].
  - intros H. apply qmin_75_mono. apply Qmult_le_compat_r; [exact H|].
    unfold qnat. simpl. unfold Qle. simpl. lia.
  - intros H H75. apply qmin_75_strict; [|exact H75].
    apply Qmult_lt_compat_r; [|exact H]. reflexivity.
  - intros H1 H2. split; apply qmin_75_sat; assumption.
Qed.

Lemma c3_fallback_monotone_witness :
  (non_empate h_c3a <> [] /\ non_empate h_c3b <> [] /\ non_empate ["C"; "V"] <> [])
  /\ ((dominant_share ["C"; "V"] < dominant_share h_c3a)%Q
      /\ (dominant_share ["C"; "V"] * qnat 100 < qnat 75)%Q)
  /\ (confidence (fallback_prediction ["C"; "V"]) < confidence (fallback_prediction h_c3a))%Q
  /\ ((qnat 75 <= dominant_share h_c3a * qnat 100)%Q
      /\ (qnat 75 <= dominant_share h_c3b * qnat 100)%Q)
  /\ (confidence (fallback_prediction h_c3a) == qnat 75)%Q
  /\ (confidence (fallback_prediction h_c3b) == qnat 75)%Q.
Proof.
  split; [split; [discriminate|split; discriminate]|].
  split; [split; reflexivity|]. split.
  { apply (proj1 (proj2 (proj2 (proj2
      (c3_fallback_monotone ["C"; "V"] h_c3a ltac:(discriminate) ltac:(discriminate))))));
      reflexivity. }
  split; [split; discriminate|].
  apply (proj2 (proj2 (proj2 (proj2
    (c3_fallback_monotone h_c3a h_c3b ltac:(discriminate) ltac:(discriminate))))));
    discriminate.
Defined.

(** C4: for a non-empty cycle string [pat] of length L and a history with a
    non-empty non-tie subsequence, the cycle continuation returns
    [pat[len(non_tie) mod L]] (the scan's mismatch does not abort it); and
    whenever branch 4 is reached (risk and manipulation low, no
    compensation_pending, first hidden_cycle with repetitions >= 2 carrying
    [pat]) the prediction is FOLLOW CYCLE on that symbol with confidence
    min(70, 50 + 5*repetitions). *)
Theorem c4_cycle_continuation (h : history) (pat : string) :
  pat <> "" -> non_empate h <> [] ->
  exists c,
    char_at pat (length (non_empate h) mod String.length pat) = Some c
    /\ predict_next_in_cycle h pat = Some c
    /\ forall ps risk manipulation cycle_pattern,
         rlevel risk = "low" -> mlevel manipulation = "low" ->
         find (fun p => String.eqb (ptype p) "compensation_pending") ps = None ->
         find is_cycle_candidate ps = Some cycle_pattern ->
         ppattern cycle_pattern = Some pat ->
         make_prediction h ps risk manipulation
         = mkPrediction (Some c)
             (qmin (qnat 70) (qnat (50 + get0 (repetitions cycle_pattern) * 5)))
             "Ciclo detectado" "SEGUIR CICLO".
Proof.
  intros Hp Hn.
  assert (L : 0 < String.length pat) by (destruct pat; [congruence|simpl; lia]).
  destruct (get_in_range pat (length (non_empate h) mod String.length pat)) as [ch Hch].
  { apply Nat.mod_upper_bound. lia. }
  exists (String ch EmptyString).
  assert (Hc : char_at pat (length (non_empate h) mod String.length pat)
               = Some (String ch EmptyString)) by (unfold char_at; rewrite Hch; reflexivity).
  split; [exact Hc|]. split; [rewrite predict_next_in_cycle_eq; assumption|].
  intros ps risk manipulation cp Hr Hm Hcomp Hcyc Hpat.
  unfold make_prediction. rewrite Hr, Hm. simpl. rewrite Hcomp.
  unfold cycle_prediction. rewrite Hcyc. unfold both_low. rewrite Hr, Hm. simpl.
  rewrite Hpat, predict_next_in_cycle_eq, Hc by assumption. reflexivity.
Qed.

Definition h_c4 : history := ["C"; "V"; "V"; "E"; "C"; "V"; "V"].

Lemma c4_cycle_continuation_witness :
  exists c,
    char_at "CVV" (length (non_empate h_c4) mod 3) = Some c
    /\ predict_next_in_cycle h_c4 "CVV" = Some c
    /\ forall ps risk manipulation cycle_pattern,
         rlevel risk = "low" -> mlevel manipulation = "low" ->
         find (fun p => String.eqb (ptype p) "compensation_pending") ps = None ->
         find is_cycle_candidate ps = Some cycle_pattern ->
         ppattern cycle_pattern = Some "CVV" ->
         make_prediction h_c4 ps risk manipulation
         = mkPrediction (Some c)
             (qmin (qnat 70) (qnat (50 + get0 (repetitions cycle_pattern) * 5)))
             "Ciclo detectado" "SEGUIR CICLO".
Proof.
  apply (c4_cycle_continuation h_c4 "CVV"); vm_compute; discriminate.
Defined.

(** C5: if the risk or the manipulation level is critical, the prediction
    is the stop prediction (no color, confidence 0, PARAR COMPLETAMENTE),
    whatever the patterns. *)
Theorem c5_critical_stops (h : history) (ps : list Pattern)
  (risk : RiskAssessment) (manipulation : ManipulationAssessment) :
  rlevel risk = "critical" \/ mlevel manipulation = "critical" ->
  make_prediction h ps risk manipulation = stop_prediction
  /\ color stop_prediction = None /\ confidence stop_prediction = 0%Q
  /\ strategy stop_prediction = "PARAR COMPLETAMENTE".
Proof.
  intros H. repeat split. apply critical_stop. exact H.
Qed.

Definition cycle_pat_c5 : Pattern :=
  mkPattern "hidden_cycle" 1 "high" (qnat 85) (Some 3) (Some "CVV") (Some 3)
    None None None None None None None None.

Lemma c5_critical_stops_witness :
  rlevel (mkRisk "critical" 100 []) = "critical"
  /\ make_prediction h_c4 [cycle_pat_c5] (mkRisk "critical" 100 []) (mkManipulation "low" 0 [])
     = stop_prediction.
Proof.
  split; [reflexivity|].
  apply (c5_critical_stops h_c4 [cycle_pat_c5] (mkRisk "critical" 100 [])
           (mkManipulation "low" 0 [])).
  left. reflexivity.
Defined.

(** C6: for every history and window size W, CompensationDetector never
    emits both artificial_balance and compensation_pending for W; every
    compensation_pending for W names the strictly less frequent of C and V in
    the last W non-tie values as favored_color, with strength equal to the
    balance ratio |C - V| / W. *)
Theorem c6_compensation_exclusive (h : history) (W : nat) :
  let window := last_n W (non_empate h) in
  let c_count := count_s "C" window in
  let v_count := count_s "V" window in
  ~ (exists p1 p2, In p1 (analyze_compensation_patterns h)
                   /\ In p2 (analyze_compensation_patterns h)
                   /\ window_size p1 = Some W /\ window_size p2 = Some W
                   /\ ptype p1 = "artificial_balance" /\ ptype p2 = "compensation_pending")
  /\ (forall p, In p (analyze_compensation_patterns h) -> window_size p = Some W ->
        ptype p = "compensation_pending" ->
        ((favored_color p = Some "C" /\ c_count < v_count)
         \/ (favored_color p = Some "V" /\ v_count < c_count))
        /\ strength p = qdiv (abs_diff c_count v_count) W).
Proof.
  cbv zeta. split.
  - intros [p1 [p2 [I1 [I2 [W1 [W2 [T1 T2]]]]]]].
    apply (compensation_in_window _ _ _ I1) in W1.
    apply (compensation_in_window _ _ _ I2) in W2.
    unfold compensation_window in W1, W2.
    destruct (Nat.leb W _); [|contradiction].
    apply in_app_or in W1, W2.
    destruct (qlt_bool _ (1 # 10) && Nat.leb 15 W) eqn:A;
      destruct (qlt_bool (4 # 10) _) eqn:B; simpl in W1, W2.
    + apply andb_true_iff in A as [A _].
      apply qlt_bool_true in A. apply qlt_bool_true in B.
      assert (X : (4 # 10 < 1 # 10)%Q) by (eapply Qlt_trans; eauto).
      discriminate X.
    + destruct W2 as [[W2|[]]|[]]; subst; discriminate.
    + destruct W1 as [[]|[W1|[]]]; subst; discriminate.
    + destruct W1 as [[]|[]].
  - intros p I Wp Tp.
    apply (compensation_in_window _ _ _ I) in Wp.
    unfold compensation_window in Wp.
    destruct (Nat.leb W _); [|contradiction].
    apply in_app_or in Wp. destruct Wp as [Wp|Wp].
    + destruct (_ && _); simpl in Wp; [|contradiction].
      destruct Wp as [Wp|[]]; subst; discriminate.
    + destruct (qlt_bool (4 # 10) _) eqn:B; simpl in Wp; [|contradiction].
      destruct Wp as [Wp|[]]; subst. simpl. split; [|reflexivity].
      apply qlt_bool_true in B.
      set (c := count_s "C" (last_n W (non_empate h))) in *.
      set (v := count_s "V" (last_n W (non_empate h))) in *.
      destruct (Nat.ltb c v) eqn:Lt.
      * left. split; [reflexivity|]. apply Nat.ltb_lt; exact Lt.
      * right. split; [reflexivity|]. apply Nat.ltb_ge in Lt.
        destruct (Nat.eq_dec c v) as [Eq|Ne]; [|lia].
        exfalso. rewrite Eq in B. unfold abs_diff in B.
        rewrite Nat.sub_diag in B. simpl in B.
        unfold qdiv, qnat in B. simpl in B.
        unfold Qlt, Qdiv, Qmult in B. simpl in B. lia.
Qed.

(** C7: the four detectors return the empty list below their minimum
    lengths (6 values, 12 non-tie values, 20 non-tie values, 8 values). *)
Theorem c7_min_length_empty (h : history) :
  (length h < 6 -> analyze_micro_patterns h = [])
  /\ (length (non_empate h) < 12 -> detect_hidden_cycles h = [])
  /\ (length (non_empate h) < 20 -> analyze_compensation_patterns h = [])
  /\ (length h < 8 -> analyze_strategic_ties h = []).
Proof.
  repeat split; intros H.
  - unfold analyze_micro_patterns. apply Nat.ltb_lt in H. rewrite H. reflexivity.
  - unfold detect_hidden_cycles. apply Nat.ltb_lt in H. rewrite H. reflexivity.
  - unfold analyze_compensation_patterns. apply Nat.ltb_lt in H. rewrite H. reflexivity.
  - unfold analyze_strategic_ties. apply Nat.ltb_lt in H. rewrite H. reflexivity.
Qed.

Definition h_c7 : history := ["C"; "E"; "C"; "E"; "C"].

Lemma c7_min_length_empty_witness :
  length h_c7 < 6 /\ analyze_micro_patterns h_c7 = [] /\ detect_hidden_cycles h_c7 = []
  /\ analyze_compensation_patterns h_c7 = [] /\ analyze_strategic_ties h_c7 = [].
Proof.
  destruct (c7_min_length_empty h_c7) as [A [B [C D]]].
  split; [simpl; lia|].
  split; [apply A; simpl; lia|].
  split; [apply B; simpl; lia|].
  split; [apply C; simpl; lia|].
  apply D; simpl; lia.
Defined.

(** C8: both scores are within [0,100] for every pattern list, and on the
    empty list both assessments are level low, score 0, no factors/signs. *)
Theorem c8_scores_bounded (ps : list Pattern) (risk : RiskAssessment) :
  0 <= rscore (assess_risk ps) <= 100
  /\ 0 <= mscore (detect_manipulation ps risk) <= 100
  /\ assess_risk [] = mkRisk "low" 0 []
  /\ detect_manipulation [] risk = mkManipulation "low" 0 [].
Proof.
  unfold assess_risk, detect_manipulation.
  destruct (fold_left risk_step ps (0, [])) as [rs rf].
  destruct (fold_left manipulation_step ps (0, [])) as [ms mf].
  simpl. repeat split; lia.
Qed.

(** C9 (counterexample): a value outside {C, V, E} is not rejected:
    analyze ["X"] yields a full result that bets on "X". *)
Lemma c9_invalid_value_analyzed :
  a_prediction (analyze ["X"])
  = mkPrediction (Some "X") (qnat 75) "Aposta baseada em frequencia historica"
      "APOSTAR NA PRINCIPAL COR".
Proof. vm_compute. reflexivity. Qed.

(** C9 (amended): analyze signals no error on any input; any value other
    than "E" (inside the alphabet or not) is analysed as a non-tie outcome,
    e.g. analyze [x] for x <> "E" is a full result betting on x at 75. *)
Theorem c9_no_error_any_value (x : string) :
  x <> "E" ->
  analyze [x]
  = mkAnalysis [] (mkRisk "low" 0 []) (mkManipulation "low" 0 [])
      (mkPrediction (Some x) (qnat 75) "Aposta baseada em frequencia historica"
         "APOSTAR NA PRINCIPAL COR").
Proof.
  intros Hx.
  assert (E : is_tie x = false) by (apply String.eqb_neq; exact Hx).
  unfold analyze, analyze_micro_patterns, detect_hidden_cycles,
    analyze_compensation_patterns, analyze_strategic_ties.
  simpl length. simpl Nat.ltb. cbv iota.
  unfold non_empate. simpl filter. rewrite E. simpl.
  unfold make_prediction, fallback_prediction, non_empate. simpl.
  rewrite E. simpl. reflexivity.
Qed.

Lemma c9_no_error_any_value_witness :
  "X" <> "E"
  /\ analyze ["X"]
     = mkAnalysis [] (mkRisk "low" 0 []) (mkManipulation "low" 0 [])
         (mkPrediction (Some "X") (qnat 75) "Aposta baseada em frequencia historica"
            "APOSTAR NA PRINCIPAL COR").
Proof. split; [discriminate|]. apply c9_no_error_any_value. discriminate. Defined.

(** C10: whenever MicroPatternDetector emits a micro_alternation, the
    manipulation score is at least 80, its level is critical, and the
    prediction is the stop prediction. *)
Theorem c10_micro_alternation_stops (h : history) (p : Pattern) :
  In p (analyze_micro_patterns h) -> ptype p = "micro_alternation" ->
  80 <= mscore (a_manipulation (analyze h))
  /\ mlevel (a_manipulation (analyze h)) = "critical"
  /\ a_prediction (analyze h) = stop_prediction.
Proof.
  intros Hin Ht.
  pose proof (micro_alternation_predictability h p Hin Ht) as Hpr.
  set (ps := (analyze_micro_patterns h ++ detect_hidden_cycles h
              ++ analyze_compensation_patterns h ++ analyze_strategic_ties h)%list).
  assert (Hps : In p ps) by (apply in_or_app; left; exact Hin).
  assert (Hq : Qle_bool (qnat 90) (predictability p) = true)
    by (rewrite Hpr; reflexivity).
  pose proof (manipulation_fold_high ps (0, []) p Hps Hq) as M. simpl in M.
  assert (Hm : mlevel (detect_manipulation ps (assess_risk ps)) = "critical"
               /\ 80 <= mscore (detect_manipulation ps (assess_risk ps))).
  { unfold detect_manipulation.
    destruct (fold_left manipulation_step ps (0, [])) as [ms mf]. simpl in *.
    unfold manipulation_level.
    assert (Nat.leb 80 ms = true) as -> by (apply Nat.leb_le; lia).
    split; [reflexivity|lia]. }
  destruct Hm as [Hl Hs].
  unfold analyze. fold ps. simpl. split; [exact Hs|]. split; [exact Hl|].
  apply critical_stop. right. exact Hl.
Qed.

Definition h_c10 : history := ["C"; "V"; "C"; "V"; "C"; "V"].

Definition alt_pat_c10 : Pattern :=
  mkPattern "micro_alternation" (qdiv 5 5) "critical" (qnat 90)
    None None None None None None None None None None None.

Lemma c10_micro_alternation_stops_witness :
  (In alt_pat_c10 (analyze_micro_patterns h_c10) /\ ptype alt_pat_c10 = "micro_alternation")
  /\ 80 <= mscore (a_manipulation (analyze h_c10))
  /\ mlevel (a_manipulation (analyze h_c10)) = "critical"
  /\ a_prediction (analyze h_c10) = stop_prediction.
Proof.
  assert (I : In alt_pat_c10 (analyze_micro_patterns h_c10))
    by (vm_compute; left; reflexivity).
  split; [split; [exact I|reflexivity]|].
  apply (c10_micro_alternation_stops h_c10 alt_pat_c10 I). reflexivity.
Defined.

Definition h_c6 : history := repeat "C" 20.

Definition pending_pat_c6 : Pattern :=
  mkPattern "compensation_pending" (qdiv 12 12) "medium" (qnat 60 + qdiv 12 12 * qnat 20)%Q
    None None None (Some 12) (Some 12) (Some "V") None None None None None.

Lemma c6_compensation_exclusive_witness :
  In pending_pat_c6 (analyze_compensation_patterns h_c6)
  /\ ((favored_color pending_pat_c6 = Some "C"
       /\ count_s "C" (last_n 12 (non_empate h_c6)) < count_s "V" (last_n 12 (non_empate h_c6)))
      \/ (favored_color pending_pat_c6 = Some "V"
          /\ count_s "V" (last_n 12 (non_empate h_c6)) < count_s "C" (last_n 12 (non_empate h_c6))))
  /\ strength pending_pat_c6
     = qdiv (abs_diff (count_s "C" (last_n 12 (non_empate h_c6)))
                      (count_s "V" (last_n 12 (non_empate h_c6)))) 12.
Proof.
  assert (I : In pending_pat_c6 (analyze_compensation_patterns h_c6))
    by (vm_compute; left; reflexivity).
  split; [exact I|].
  apply (proj2 (c6_compensation_exclusive h_c6 12) pending_pat_c6 I); reflexivity.
Defined.

(** ** Further properties of the code *)

(** *** Counter and max *)

Fixpoint ccount (k : string) (c : list (string * nat)) : nat :=
  match c with
  | [] => 0
  | (k', n) :: t => if String.eqb k k' then n else ccount k t
  end.

Lemma ccount_add (k x : string) (c : list (string * nat)) :
  ccount k (counter_add x c) = ccount k c + (if String.eqb k x then 1 else 0).
Proof.
  induction c as [|[k' n] t IH]; simpl.
  - destruct (String.eqb k x); reflexivity.
  - destruct (String.eqb x k') eqn:Exk; simpl.
    + apply String.eqb_eq in Exk; subst k'.
      destruct (String.eqb k x); lia.
    + rewrite IH. destruct (String.eqb k k') eqn:Ekk; [|reflexivity].
      apply String.eqb_eq in Ekk; subst k'.
      destruct (String.eqb k x) eqn:Ekx; [|lia].
      apply String.eqb_eq in Ekx; subst x. rewrite String.eqb_refl in Exk. discriminate.
Qed.

Lemma count_s_cons (k x : string) (l : list string) :
  count_s k (x :: l) = (if String.eqb k x then 1 else 0) + count_s k l.
Proof. unfold count_s. simpl. destruct (String.eqb k x); reflexivity. Qed.

Lemma ccount_fold (k : string) (l : list string) (c : list (string * nat)) :
  ccount k (fold_left (fun c k => counter_add k c) l c) = ccount k c + count_s k l.
Proof.
  revert c. induction l as [|x l IH]; intros c; simpl.
  - unfold count_s. simpl. lia.
  - rewrite IH, ccount_add, count_s_cons. lia.
Qed.

Lemma keys_add (k x : string) (c : list (string * nat)) :
  In k (map fst (counter_add x c)) <-> k = x \/ In k (map fst c).
Proof.
  induction c as [|[k' n] t IH]; simpl.
  - intuition congruence.
  - destruct (String.eqb x k') eqn:E; simpl.
    + apply String.eqb_eq in E; subst. intuition congruence.
    + rewrite IH. intuition congruence.
Qed.

Lemma nodup_add (x : string) (c : list (string * nat)) :
  NoDup (map fst c) -> NoDup (map fst (counter_add x c)).
Proof.
  induction c as [|[k' n] t IH]; simpl; intros H.
  - constructor; [intros []|constructor].
  - inversion H as [|? ? Hn Ht]; subst.
    destruct (String.eqb x k') eqn:E; simpl; [constructor; assumption|].
    constructor; [|apply IH, Ht].
    rewrite keys_add. intros [->|Hin]; [|contradiction].
    rewrite String.eqb_refl in E. discriminate.
Qed.

Lemma nodup_fold (l : list string) (c : list (string * nat)) :
  NoDup (map fst c) -> NoDup (map fst (fold_left (fun c k => counter_add k c) l c)).
Proof.
  revert c. induction l as [|x l IH]; intros c H; simpl; [exact H|].
  apply IH, nodup_add, H.
Qed.

Lemma keys_fold (k : string) (l : list string) (c : list (string * nat)) :
  In k (map fst (fold_left (fun c k => counter_add k c) l c)) -> In k (map fst c) \/ In k l.
Proof.
  revert c. induction l as [|x l IH]; intros c H; simpl in *; [auto|].
  destruct (IH _ H) as [H'|H']; [|auto].
  apply keys_add in H'. destruct H' as [->|H']; auto.
Qed.

Lemma ccount_in (k : string) (n : nat) (c : list (string * nat)) :
  NoDup (map fst c) -> In (k, n) c -> ccount k c = n.
Proof.
  induction c as [|[k' m] t IH]; simpl; intros Hd Hin; [contradiction|].
  inversion Hd as [|? ? Hn Ht]; subst.
  destruct Hin as [E|Hin].
  - injection E as -> ->. rewrite String.eqb_refl. reflexivity.
  - destruct (String.eqb k k') eqn:E.
    + apply String.eqb_eq in E; subst k'. exfalso. apply Hn.
      apply (in_map fst) in Hin. exact Hin.
    + apply IH; assumption.
Qed.

Lemma ccount_pos_in (k : string) (c : list (string * nat)) :
  0 < ccount k c -> exists n, In (k, n) c.
Proof.
  induction c as [|[k' m] t IH]; simpl; intros H; [lia|].
  destruct (String.eqb k k') eqn:E.
  - apply String.eqb_eq in E; subst. eauto.
  - destruct (IH H) as [n Hn]. eauto.
Qed.

(** [Counter l] maps each key to its number of occurrences in [l]. *)
Lemma Counter_in (k : string) (n : nat) (l : list string) :
  In (k, n) (Counter l) -> n = count_s k l.
Proof.
  intros H. unfold Counter in *.
  rewrite <- (ccount_in k n _ (nodup_fold l [] (NoDup_nil _)) H).
  rewrite ccount_fold. reflexivity.
Qed.

Lemma Counter_key_in (k : string) (n : nat) (l : list string) :
  In (k, n) (Counter l) -> In k l.
Proof.
  intros H. apply (in_map fst) in H. simpl in H.
  unfold Counter in H. destruct (keys_fold _ _ _ H) as [[]|H']; exact H'.
Qed.

Lemma Counter_complete (k : string) (l : list string) :
  0 < count_s k l -> In (k, count_s k l) (Counter l).
Proof.
  intros H.
  assert (E : ccount k (Counter l) = count_s k l) by (unfold Counter; rewrite ccount_fold; reflexivity).
  destruct (ccount_pos_in k (Counter l)) as [n Hn]; [lia|].
  rewrite (Counter_in _ _ _ Hn) in Hn. exact Hn.
Qed.

Lemma max_by_count_in (b : string * nat) (l : list (string * nat)) :
  In (max_by_count b l) (b :: l).
Proof.
  revert b. induction l as [|x t IH]; intros b; simpl; [auto|].
  destruct (Nat.ltb (snd b) (snd x)).
  - specialize (IH x). simpl in IH. tauto.
  - specialize (IH b). simpl in IH. tauto.
Qed.

Lemma max_by_count_ge (b : string * nat) (l : list (string * nat)) :
  snd b <= snd (max_by_count b l).
Proof.
  revert b. induction l as [|x t IH]; intros b; simpl; [lia|].
  destruct (Nat.ltb (snd b) (snd x)) eqn:E.
  - apply Nat.ltb_lt in E. specialize (IH x). lia.
  - apply IH.
Qed.

Lemma max_by_count_max (b : string * nat) (l : list (string * nat)) (y : string * nat) :
  In y (b :: l) -> snd y <= snd (max_by_count b l).
Proof.
  revert b. induction l as [|x t IH]; intros b Hy; simpl in *.
  - destruct Hy as [->|[]]; lia.
  - destruct (Nat.ltb (snd b) (snd x)) eqn:E.
    + apply Nat.ltb_lt in E.
      destruct Hy as [->|[->|Hy]].
      * pose proof (max_by_count_ge x t). lia.
      * apply max_by_count_ge.
      * apply IH. right. exact Hy.
    + apply Nat.ltb_ge in E.
      destruct Hy as [->|[->|Hy]].
      * apply max_by_count_ge.
      * pose proof (max_by_count_ge b t). lia.
      * apply IH. right. exact Hy.
Qed.

(** *** Hidden cycles *)

Lemma hidden_cycle_for_spec (ne : list string) (L : nat) (p : Pattern) :
  In p (hidden_cycle_for ne L) ->
  exists pat n,
    ptype p = "hidden_cycle" /\ cycle_size p = Some L /\ ppattern p = Some pat
    /\ repetitions p = Some n /\ 2 <= n
    /\ n = count_s pat (cycles_of ne L)
    /\ (forall w, In w (cycles_of ne L) -> count_s w (cycles_of ne L) <= n)
    /\ strength p = qmin (qdiv n 3) 1
    /\ prisk p = (if Nat.leb 3 n then "high" else "medium")
    /\ predictability p = qnat (70 + n * 5).
Proof.
  unfold hidden_cycle_for. intros H.
  destruct (filter (fun cc => Nat.leb 2 (snd cc)) (Counter (cycles_of ne L))) as [|r0 rs] eqn:F;
    [contradiction|].
  destruct (max_by_count r0 rs) as [mr count] eqn:M.
  destruct H as [<-|[]]. simpl.
  pose proof (max_by_count_in r0 rs) as Hin. rewrite M in Hin.
  rewrite <- F in Hin. apply filter_In in Hin as [Hc H2]. change (Nat.leb 2 count = true) in H2.
  apply Nat.leb_le in H2.
  exists mr, count. repeat split; try reflexivity; try exact H2.
  - exact (Counter_in _ _ _ Hc).
  - intros w Hw.
    destruct (Nat.le_gt_cases 2 (count_s w (cycles_of ne L))) as [G|G]; [|lia].
    assert (Hwc : In (w, count_s w (cycles_of ne L)) (r0 :: rs)).
    { rewrite <- F. apply filter_In. split.
      - apply Counter_complete. lia.
      - cbn [snd]. apply Nat.leb_le. exact G. }
    pose proof (max_by_count_max r0 rs _ Hwc) as X. rewrite M in X. exact X.
Qed.

Lemma keys_counter_add_prefix (k : string) (c : list (string * nat)) :
  exists s, map fst (counter_add k c) = (map fst c ++ s)%list.
Proof.
  induction c as [|[k' n] t IH]; simpl.
  - exists [k]. reflexivity.
  - destruct (String.eqb k k').
    + exists []. simpl. rewrite app_nil_r. reflexivity.
    + destruct IH as [s Hs]. exists s. simpl. rewrite Hs. reflexivity.
Qed.

Lemma keys_fold_prefix (l : list string) (c : list (string * nat)) :
  exists s, map fst (fold_left (fun c k => counter_add k c) l c) = (map fst c ++ s)%list.
Proof.
  revert c. induction l as [|x l IH]; intros c; simpl.
  - exists []. rewrite app_nil_r. reflexivity.
  - destruct (keys_counter_add_prefix x c) as [s1 H1].
    destruct (IH (counter_add x c)) as [s2 H2].
    exists (s1 ++ s2)%list. rewrite H2, H1, app_assoc. reflexivity.
Qed.

Lemma counter_add_new (k : string) (c : list (string * nat)) :
  ~ In k (map fst c) -> counter_add k c = (c ++ [(k, 1)])%list.
Proof.
  induction c as [|[k' n] t IH]; simpl; intros H; [reflexivity|].
  destruct (String.eqb k k') eqn:E.
  - apply String.eqb_eq in E. subst. exfalso. apply H. left. reflexivity.
  - rewrite IH; [reflexivity|]. intros Hin. apply H. right. exact Hin.
Qed.

(** The keys of a Counter come in order of first occurrence. *)
Lemma Counter_first (l pre post : list string) (x : string) :
  l = (pre ++ x :: post)%list -> ~ In x pre ->
  exists s, map fst (Counter l) = (map fst (Counter pre) ++ x :: s)%list.
Proof.
  intros -> Nx. unfold Counter. rewrite fold_left_app. simpl.
  rewrite (counter_add_new x).
  - destruct (keys_fold_prefix post (fold_left (fun c k => counter_add k c) pre [] ++ [(x, 1)]))
      as [s Hs].
    exists s. rewrite Hs, map_app, <- app_assoc. reflexivity.
  - intros Hin. destruct (keys_fold _ _ _ Hin) as [[]|H]. exact (Nx H).
Qed.

Lemma split_unique {A} (x : A) (a b a' b' : list A) :
  (a ++ x :: b)%list = (a' ++ x :: b')%list -> ~ In x a -> ~ In x a' -> a = a'.
Proof.
  revert a'. induction a as [|y a IH]; intros a' E Na Na'; destruct a' as [|y' a']; simpl in *.
  - reflexivity.
  - injection E as -> _. exfalso. apply Na'. left. reflexivity.
  - injection E as <- _. exfalso. apply Na. left. reflexivity.
  - injection E as -> E. f_equal. apply IH; tauto.
Qed.

Lemma in_split_first (x : string) (l : list string) :
  In x l -> exists pre post, l = (pre ++ x :: post)%list /\ ~ In x pre.
Proof.
  induction l as [|y l IH]; intros H; [contradiction|].
  destruct (string_dec y x) as [->|D].
  - exists [], l. split; [reflexivity|]. intros [].
  - destruct H as [E|H]; [contradiction|].
    destruct (IH H) as [pre [post [E N]]].
    exists (y :: pre), post. split; [rewrite E; reflexivity|].
    intros [E'|H']; [contradiction|exact (N H')].
Qed.

Lemma count_s_pos (x : string) (l : list string) : In x l -> 0 < count_s x l.
Proof.
  intros H. unfold count_s.
  assert (F : In x (filter (String.eqb x) l)) by (apply filter_In; split; [exact H|apply String.eqb_refl]).
  destruct (filter (String.eqb x) l); [contradiction|simpl; lia].
Qed.

Lemma filter_split {A} (f : A -> bool) (l pre post : list A) (m : A) :
  filter f l = (pre ++ m :: post)%list ->
  exists l1 l2, l = (l1 ++ m :: l2)%list /\ filter f l1 = pre.
Proof.
  revert pre. induction l as [|y l IH]; intros pre E; simpl in E.
  - destruct pre; discriminate.
  - destruct (f y) eqn:Fy.
    + destruct pre as [|z pre]; simpl in E.
      * injection E as -> _. exists [], l. split; reflexivity.
      * injection E as -> E. destruct (IH _ E) as [l1 [l2 [E1 E2]]].
        exists (z :: l1), l2. split; [rewrite E1; reflexivity|]. simpl. rewrite Fy, E2. reflexivity.
    + destruct (IH _ E) as [l1 [l2 [E1 E2]]].
      exists (y :: l1), l2. split; [rewrite E1; reflexivity|]. simpl. rewrite Fy. exact E2.
Qed.

(** [max_by_count] returns the first item of maximal count: every item
    before it counts strictly less. *)
Lemma max_by_count_first (b : string * nat) (l : list (string * nat)) :
  exists pre post, (b :: l) = (pre ++ max_by_count b l :: post)%list
  /\ Forall (fun y => snd y < snd (max_by_count b l)) pre.
Proof.
  revert b. induction l as [|x t IH]; intros b; simpl.
  - exists [], []. split; [reflexivity|constructor].
  - destruct (Nat.ltb (snd b) (snd x)) eqn:E.
    + apply Nat.ltb_lt in E. destruct (IH x) as [pre [post [Ep Fp]]].
      exists (b :: pre), post. split; [rewrite Ep; reflexivity|].
      constructor; [|exact Fp]. pose proof (max_by_count_ge x t). lia.
    + apply Nat.ltb_ge in E. destruct (IH b) as [pre [post [Ep Fp]]].
      destruct pre as [|z pre].
      * simpl in Ep. injection Ep as Eb Et.
        exists [], (x :: t). split; [rewrite <- Eb; reflexivity|constructor].
      * simpl in Ep. injection Ep as <- Et. inversion Fp as [|? ? Fb Fr]; subst.
        exists (b :: x :: pre), post. split; [simpl; rewrite <- Et; reflexivity|].
        constructor; [exact Fb|]. constructor; [cbn [snd] in Fb; lia|exact Fr].
Qed.

(** The window reported for one cycle size is the first, in order of first
    occurrence, of the most repeated windows. *)
Lemma hidden_cycle_for_first (ne : list string) (L : nat) (p : Pattern) :
  In p (hidden_cycle_for ne L) ->
  exists pat n, ppattern p = Some pat /\ repetitions p = Some n
    /\ exists pre post, cycles_of ne L = (pre ++ pat :: post)%list /\ ~ In pat pre
    /\ forall w, In w pre -> count_s w (cycles_of ne L) < n.
Proof.
  unfold hidden_cycle_for. intros H.
  destruct (filter (fun cc => Nat.leb 2 (snd cc)) (Counter (cycles_of ne L))) as [|r0 rs] eqn:F;
    [contradiction|].
  destruct (max_by_count r0 rs) as [mr count] eqn:M.
  destruct H as [<-|[]]. exists mr, count. split; [reflexivity|]. split; [reflexivity|].
  assert (C2 : 2 <= count).
  { pose proof (max_by_count_in r0 rs) as Hin. rewrite M, <- F in Hin.
    apply filter_In in Hin as [_ H2]. apply Nat.leb_le. exact H2. }
  destruct (max_by_count_first r0 rs) as [pr [po [Ep Fp]]]. rewrite M in Ep, Fp.
  rewrite <- F in Ep. destruct (filter_split _ _ _ _ _ Ep) as [K1 [K2 [EK FK]]].
  assert (Hc : In (mr, count) (Counter (cycles_of ne L)))
    by (rewrite EK; apply in_or_app; right; left; reflexivity).
  destruct (in_split_first _ _ (Counter_key_in _ _ _ Hc)) as [pre [post [Ec Np]]].
  exists pre, post. split; [exact Ec|]. split; [exact Np|].
  intros w Hw.
  destruct (Counter_first _ _ _ _ Ec Np) as [s Es].
  rewrite EK, map_app in Es. cbn [map fst] in Es.
  assert (ND : NoDup (map fst (Counter (cycles_of ne L))))
    by (apply nodup_fold, NoDup_nil).
  rewrite EK, map_app in ND. cbn [map fst] in ND.
  assert (K : map fst K1 = map fst (Counter pre)).
  { apply (split_unique mr _ (map fst K2) _ s Es).
    - intros Hin. apply (NoDup_remove_2 _ _ _ ND). apply in_or_app. left. exact Hin.
    - intros Hin. destruct (keys_fold _ _ _ Hin) as [[]|H']. exact (Np H'). }
  assert (Hw1 : In w (map fst K1)).
  { rewrite K. apply (in_map fst (Counter pre) (w, count_s w pre)).
    apply Counter_complete, count_s_pos, Hw. }
  apply in_map_iff in Hw1 as [[w' m] [Ew Hm]]. cbn [fst] in Ew. subst w'.
  assert (Hm' : In (w, m) (Counter (cycles_of ne L)))
    by (rewrite EK; apply in_or_app; left; exact Hm).
  rewrite <- (Counter_in _ _ _ Hm').
  destruct (Nat.leb 2 m) eqn:E2.
  - assert (Hp : In (w, m) pr) by (rewrite <- FK; apply filter_In; split; assumption).
    rewrite Forall_forall in Fp. exact (Fp _ Hp).
  - apply Nat.leb_gt in E2. lia.
Qed.

(** HiddenCycleDetector: every hidden_cycle pattern is for a cycle size in
    3..6; its repetitions is the number of windows of that size equal to its
    pattern string, at least 2, and no window of that size occurs more often;
    among the windows of maximal count it is the first to occur (every
    window seen before its first occurrence occurs fewer times); strength,
    risk and predictability follow from that count. *)
Theorem hidden_cycle_most_repeated (h : history) (p : Pattern) :
  In p (detect_hidden_cycles h) ->
  exists L pat n,
    In L [3; 4; 5; 6] /\ cycle_size p = Some L /\ ppattern p = Some pat
    /\ repetitions p = Some n /\ 2 <= n
    /\ n = count_s pat (cycles_of (non_empate h) L)
    /\ (forall w, In w (cycles_of (non_empate h) L) -> count_s w (cycles_of (non_empate h) L) <= n)
    /\ (exists pre post, cycles_of (non_empate h) L = (pre ++ pat :: post)%list /\ ~ In pat pre
        /\ forall w, In w pre -> count_s w (cycles_of (non_empate h) L) < n)
    /\ strength p = qmin (qdiv n 3) 1
    /\ prisk p = (if Nat.leb 3 n then "high" else "medium")
    /\ predictability p = qnat (70 + n * 5).
Proof.
  unfold detect_hidden_cycles. intros H.
  destruct (Nat.ltb _ 12); [contradiction|].
  apply in_flat_map in H. destruct H as [L [HL Hp]].
  destruct (hidden_cycle_for_spec _ _ _ Hp)
    as [pat [n [_ [A [B [C [D [E [F [G [I J]]]]]]]]]]].
  destruct (hidden_cycle_for_first _ _ _ Hp) as [pat' [n' [B' [C' K]]]].
  rewrite B in B'. rewrite C in C'. injection B' as <-. injection C' as <-.
  exists L, pat, n. repeat split; assumption.
Qed.

(** Four windows of size 3 occur twice each; CCC, seen first, is reported. *)
Definition h_x1 : history := ["C"; "C"; "C"; "V"; "V"; "V"; "C"; "C"; "C"; "V"; "V"; "V"].

Definition cyc_pat_x1 : Pattern :=
  mkPattern "hidden_cycle" (qmin (qdiv 2 3) 1) "medium" (qnat (70 + 2 * 5))
    (Some 3) (Some "CCC") (Some 2) None None None None None None None None.

Lemma hidden_cycle_most_repeated_witness :
  In cyc_pat_x1 (detect_hidden_cycles h_x1)
  /\ exists L pat n,
    In L [3; 4; 5; 6] /\ cycle_size cyc_pat_x1 = Some L /\ ppattern cyc_pat_x1 = Some pat
    /\ repetitions cyc_pat_x1 = Some n /\ 2 <= n
    /\ n = count_s pat (cycles_of (non_empate h_x1) L)
    /\ (forall w, In w (cycles_of (non_empate h_x1) L) -> count_s w (cycles_of (non_empate h_x1) L) <= n)
    /\ (exists pre post, cycles_of (non_empate h_x1) L = (pre ++ pat :: post)%list /\ ~ In pat pre
        /\ forall w, In w pre -> count_s w (cycles_of (non_empate h_x1) L) < n)
    /\ strength cyc_pat_x1 = qmin (qdiv n 3) 1
    /\ prisk cyc_pat_x1 = (if Nat.leb 3 n then "high" else "medium")
    /\ predictability cyc_pat_x1 = qnat (70 + n * 5).
Proof.
  assert (I : In cyc_pat_x1 (detect_hidden_cycles h_x1)) by (vm_compute; left; reflexivity).
  split; [exact I|]. exact (hidden_cycle_most_repeated h_x1 cyc_pat_x1 I).
Defined.

(** *** Strategic ties *)

Lemma nth_s_slice (a b i : nat) (l : list string) :
  i < b - a -> nth_s (slice a b l) i = nth_s l (a + i).
Proof.
  intros H. unfold nth_s, slice. rewrite nth_firstn.
  assert (E : Nat.ltb i (b - a) = true) by (apply Nat.ltb_lt; exact H).
  rewrite E, nth_skipn. reflexivity.
Qed.

Lemma length_slice {A} (a b : nat) (l : list A) :
  length (slice a b l) = Nat.min (b - a) (length l - a).
Proof. unfold slice. rewrite length_firstn, length_skipn. reflexivity. Qed.

Lemma before_shape (h : history) (pos : nat) :
  3 <= pos -> pos < length h ->
  slice (pos - 3) pos h = [nth_s h (pos - 3); nth_s h (pos - 2); nth_s h (pos - 1)].
Proof.
  intros H3 Hl.
  pose proof (length_slice (pos - 3) pos h) as L.
  assert (L3 : length (slice (pos - 3) pos h) = 3) by lia.
  destruct (slice (pos - 3) pos h) as [|x [|y [|z [|w t]]]] eqn:S; simpl in L3; try lia.
  pose proof (nth_s_slice (pos - 3) pos 0 h ltac:(lia)) as N0.
  pose proof (nth_s_slice (pos - 3) pos 1 h ltac:(lia)) as N1.
  pose proof (nth_s_slice (pos - 3) pos 2 h ltac:(lia)) as N2.
  rewrite S in N0, N1, N2. unfold nth_s in N0, N1, N2 at 1. simpl in N0, N1, N2.
  replace (pos - 3 + 0) with (pos - 3) in N0 by lia.
  replace (pos - 3 + 1) with (pos - 2) in N1 by lia.
  replace (pos - 3 + 2) with (pos - 1) in N2 by lia.
  rewrite N0, N1, N2. reflexivity.
Qed.

Lemma strategic_ties_at_spec (h : history) (pos : nat) (p : Pattern) :
  pos < length h -> In p (strategic_ties_at h pos) ->
  position p = Some pos /\ 3 <= pos
  /\ ((ptype p = "strategic_tie_after_sequence"
       /\ nth_s h (pos - 2) = nth_s h (pos - 1) /\ nth_s h (pos - 1) <> "E"
       /\ sequence_color p = Some (nth_s h (pos - 1))
       /\ exists k, sequence_length p = Some k /\ 2 <= k <= 3)
      \/ (ptype p = "strategic_tie_before_reversal"
          /\ pos + 2 < length h
          /\ from_color p = Some (nth_s h (pos - 1)) /\ to_color p = Some (nth_s h (pos + 1))
          /\ nth_s h (pos - 1) <> "E" /\ nth_s h (pos + 1) <> "E"
          /\ nth_s h (pos - 1) <> nth_s h (pos + 1))).
Proof.
  intros Hl H. unfold strategic_ties_at in H.
  destruct (Nat.leb 3 pos) eqn:H3; [|contradiction]. apply Nat.leb_le in H3.
  rewrite (before_shape h pos H3 Hl) in H.
  set (x := nth_s h (pos - 3)) in *. set (y := nth_s h (pos - 2)) in *.
  set (z := nth_s h (pos - 1)) in *.
  assert (E1 : last1 [x; y; z] = z) by reflexivity.
  assert (E2 : last2 [x; y; z] = y) by reflexivity.
  assert (E3 : length [x; y; z] = 3) by reflexivity.
  rewrite E1, E2, E3 in H.
  change (Nat.leb 2 3) with true in H. change (Nat.leb 1 3) with true in H.
  rewrite ?andb_true_l, ?andb_true_r in H.
  apply in_app_or in H. destruct H as [H|H].
  - destruct (String.eqb z y) eqn:Ezy; [|contradiction].
    destruct (negb (String.eqb z "E")) eqn:Ez; [|contradiction].
    destruct H as [<-|[]]. simpl. split; [reflexivity|]. split; [exact H3|].
    left. apply String.eqb_eq in Ezy.
    apply negb_true_iff, String.eqb_neq in Ez.
    repeat split; try congruence.
    unfold get_sequence_length. simpl. rewrite Ezy, String.eqb_refl.
    exists (1 + S (if String.eqb x y then 1 else 0)).
    split; [reflexivity|]. destruct (String.eqb x y); lia.
  - pose proof (length_slice (pos + 1) (pos + 4) h) as La.
    destruct (Nat.leb 2 (length (slice (pos + 1) (pos + 4) h))) eqn:L2;
      [|contradiction].
    apply Nat.leb_le in L2.
    rewrite (nth_s_slice (pos + 1) (pos + 4) 0 h ltac:(lia)) in H.
    replace (pos + 1 + 0) with (pos + 1) in H by lia.
    destruct (negb (String.eqb z "E")) eqn:Ez; [|contradiction].
    destruct (negb (String.eqb (nth_s h (pos + 1)) "E")) eqn:Ea; [|contradiction].
    destruct (negb (String.eqb z (nth_s h (pos + 1)))) eqn:Ed; [|contradiction].
    destruct H as [<-|[]]. simpl. split; [reflexivity|]. split; [exact H3|].
    right. apply negb_true_iff, String.eqb_neq in Ez, Ea, Ed.
    repeat split; try assumption; try reflexivity. lia.
Qed.

(** StrategicTieDetector: every pattern is attached to a tie at an index
    [pos >= 3]. An after-sequence pattern follows two equal non-tie values
    [h[pos-2] = h[pos-1]], names that value, and records a run length of 2
    or 3; a before-reversal pattern has [h[pos+1]] and [h[pos+2]] in range,
    and records [h[pos-1]] and [h[pos+1]], both non-tie and different. *)
Theorem strategic_tie_shape (h : history) (p : Pattern) :
  In p (analyze_strategic_ties h) ->
  exists pos,
    position p = Some pos /\ 3 <= pos /\ pos < length h /\ nth_s h pos = "E"
    /\ ((ptype p = "strategic_tie_after_sequence"
         /\ nth_s h (pos - 2) = nth_s h (pos - 1) /\ nth_s h (pos - 1) <> "E"
         /\ sequence_color p = Some (nth_s h (pos - 1))
         /\ exists k, sequence_length p = Some k /\ 2 <= k <= 3)
        \/ (ptype p = "strategic_tie_before_reversal"
            /\ pos + 2 < length h
            /\ from_color p = Some (nth_s h (pos - 1)) /\ to_color p = Some (nth_s h (pos + 1))
            /\ nth_s h (pos - 1) <> "E" /\ nth_s h (pos + 1) <> "E"
            /\ nth_s h (pos - 1) <> nth_s h (pos + 1))).
Proof.
  unfold analyze_strategic_ties. intros H.
  destruct (Nat.ltb _ 8); [contradiction|].
  apply in_flat_map in H. destruct H as [pos [Hpos Hp]].
  apply filter_In in Hpos as [Hs He]. apply in_seq in Hs.
  apply String.eqb_eq in He.
  destruct (strategic_ties_at_spec h pos p ltac:(lia) Hp) as [A [B C]].
  exists pos. repeat split; try assumption; lia.
Qed.

Definition h_x2 : history := ["C"; "C"; "V"; "E"; "V"; "C"; "C"; "E"; "V"].

Definition tie_pat_x2 : Pattern :=
  mkPattern "strategic_tie_after_sequence" (7 # 10) "high" (qnat 75)
    None None None None None None (Some 7) (Some "C") (Some 2) None None.

Lemma strategic_tie_shape_witness :
  In tie_pat_x2 (analyze_strategic_ties h_x2)
  /\ exists pos,
    position tie_pat_x2 = Some pos /\ 3 <= pos /\ pos < length h_x2 /\ nth_s h_x2 pos = "E"
    /\ ((ptype tie_pat_x2 = "strategic_tie_after_sequence"
         /\ nth_s h_x2 (pos - 2) = nth_s h_x2 (pos - 1) /\ nth_s h_x2 (pos - 1) <> "E"
         /\ sequence_color tie_pat_x2 = Some (nth_s h_x2 (pos - 1))
         /\ exists k, sequence_length tie_pat_x2 = Some k /\ 2 <= k <= 3)
        \/ (ptype tie_pat_x2 = "strategic_tie_before_reversal"
            /\ pos + 2 < length h_x2
            /\ from_color tie_pat_x2 = Some (nth_s h_x2 (pos - 1))
            /\ to_color tie_pat_x2 = Some (nth_s h_x2 (pos + 1))
            /\ nth_s h_x2 (pos - 1) <> "E" /\ nth_s h_x2 (pos + 1) <> "E"
            /\ nth_s h_x2 (pos - 1) <> nth_s h_x2 (pos + 1))).
Proof.
  assert (I : In tie_pat_x2 (analyze_strategic_ties h_x2)) by (vm_compute; left; reflexivity).
  split; [exact I|]. exact (strategic_tie_shape h_x2 tie_pat_x2 I).
Defined.

(** *** Strength bounds *)

Lemma qnat_le (a b : nat) : a <= b -> (qnat a <= qnat b)%Q.
Proof. intros H. unfold qnat, Qle. simpl. lia. Qed.

Lemma qdiv_unit (a b : nat) : a <= b -> 0 < b -> (0 <= qdiv a b <= 1)%Q.
Proof.
  intros Hab Hb. unfold qdiv.
  assert (Pb : (0 < qnat b)%Q) by (unfold qnat, Qlt; simpl; lia).
  split.
  - apply Qle_shift_div_l; [exact Pb|]. rewrite Qmult_0_l. unfold qnat, Qle; simpl; lia.
  - apply Qle_shift_div_r; [exact Pb|]. rewrite Qmult_1_l. apply qnat_le, Hab.
Qed.

Lemma qmin_unit (a : Q) : (0 <= a)%Q -> (0 <= qmin a 1 <= 1)%Q.
Proof.
  intros H. unfold qmin. destruct (qlt_bool 1 a) eqn:E.
  - split; discriminate.
  - apply qlt_bool_false in E. split; assumption.
Qed.

Lemma count_CV_le (l : list string) : count_s "C" l + count_s "V" l <= length l.
Proof.
  induction l as [|x l IH]; [unfold count_s; simpl; lia|].
  rewrite !count_s_cons. simpl length.
  destruct (String.eqb "C" x) eqn:Ec; destruct (String.eqb "V" x) eqn:Ev; try lia.
  apply String.eqb_eq in Ec, Ev. congruence.
Qed.

Lemma length_last_n {A} (n : nat) (l : list A) : n <= length l -> length (last_n n l) = n.
Proof. intros H. unfold last_n. rewrite length_skipn. lia. Qed.

Definition unit_strength (p : Pattern) : Prop := (0 <= strength p <= 1)%Q.

Lemma micro_strength (h : history) (p : Pattern) :
  In p (analyze_micro_patterns h) -> unit_strength p.
Proof.
  unfold analyze_micro_patterns, unit_strength. intros H.
  destruct (Nat.ltb _ 6); [contradiction|].
  apply in_app_or in H. destruct H as [H|H].
  - destruct (Nat.leb 2 _); [|contradiction]. destruct H as [<-|[]]. simpl.
    apply qdiv_unit; [|lia]. unfold double_pattern_count.
    apply (filter_length_le _ [0; 2; 4]).
  - destruct (Nat.leb 6 _); [|contradiction].
    destruct (Nat.leb 4 _); [|contradiction]. destruct H as [<-|[]]. simpl.
    apply qdiv_unit; [|lia]. unfold micro_alternations.
    etransitivity; [apply filter_length_le|]. rewrite length_seq. lia.
Qed.

Lemma hidden_strength (h : history) (p : Pattern) :
  In p (detect_hidden_cycles h) -> unit_strength p.
Proof.
  unfold detect_hidden_cycles, unit_strength. intros H.
  destruct (Nat.ltb _ 12); [contradiction|].
  apply in_flat_map in H. destruct H as [L [_ Hp]].
  destruct (hidden_cycle_for_spec _ _ _ Hp) as [pat [n [_ [_ [_ [_ [_ [_ [_ [S _]]]]]]]]]].
  rewrite S. apply qmin_unit. unfold qdiv.
  apply Qle_shift_div_l; [unfold qnat, Qlt; simpl; lia|].
  rewrite Qmult_0_l. unfold qnat, Qle; simpl; lia.
Qed.

Lemma compensation_strength (h : history) (p : Pattern) :
  In p (analyze_compensation_patterns h) -> unit_strength p.
Proof.
  unfold analyze_compensation_patterns, unit_strength. intros H.
  destruct (Nat.ltb _ 20) eqn:N; [contradiction|]. apply Nat.ltb_ge in N.
  apply in_flat_map in H. destruct H as [W [HW Hp]].
  unfold compensation_window in Hp.
  destruct (Nat.leb W _) eqn:LW; [|contradiction]. apply Nat.leb_le in LW.
  assert (WP : 0 < W) by (simpl in HW; lia).
  pose proof (count_CV_le (last_n W (non_empate h))) as CV.
  rewrite length_last_n in CV by exact LW.
  assert (U : (0 <= qdiv (abs_diff (count_s "C" (last_n W (non_empate h)))
                                   (count_s "V" (last_n W (non_empate h)))) W <= 1)%Q)
    by (apply qdiv_unit; [unfold abs_diff; lia|exact WP]).
  apply in_app_or in Hp. destruct Hp as [Hp|Hp].
  - destruct (_ && _) eqn:A; [|contradiction]. destruct Hp as [<-|[]]. simpl.
    apply andb_true_iff in A as [A _]. apply qlt_bool_true in A.
    destruct U as [U0 U1]. split.
    + apply (Qplus_le_r _ _ (qdiv (abs_diff (count_s "C" (last_n W (non_empate h)))
                                          (count_s "V" (last_n W (non_empate h)))) W)).
      ring_simplify. apply Qle_trans with (1 # 10); [apply Qlt_le_weak, A|]. discriminate.
    + apply (Qplus_le_r _ _ (qdiv (abs_diff (count_s "C" (last_n W (non_empate h)))
                                          (count_s "V" (last_n W (non_empate h)))) W)).
      ring_simplify. rewrite Qplus_comm. apply Qplus_le_r with (z := -1%Q).
      ring_simplify. exact U0.
  - destruct (qlt_bool _ _); [|contradiction]. destruct Hp as [<-|[]]. exact U.
Qed.

Lemma ties_strength (h : history) (p : Pattern) :
  In p (analyze_strategic_ties h) -> unit_strength p.
Proof.
  unfold analyze_strategic_ties, unit_strength. intros H.
  destruct (Nat.ltb _ 8); [contradiction|].
  apply in_flat_map in H. destruct H as [pos [_ Hp]].
  unfold strategic_ties_at in Hp. destruct (Nat.leb 3 pos); [|contradiction].
  apply in_app_or in Hp. destruct Hp as [Hp|Hp].
  - destruct (_ && _); [|contradiction]. destruct Hp as [<-|[]]. split; discriminate.
  - destruct (_ && _); [|contradiction]. destruct (negb _); [|contradiction].
    destruct Hp as [<-|[]]. split; discriminate.
Qed.

Lemma analyze_strength (h : history) (p : Pattern) :
  In p (a_patterns (analyze h)) -> unit_strength p.
Proof.
  simpl. intros H.
  repeat (apply in_app_or in H; destruct H as [H|H]);
    eauto using micro_strength, hidden_strength, compensation_strength, ties_strength.
Qed.

(** *** Pattern kinds per detector *)

Lemma micro_types (h : history) (p : Pattern) :
  In p (analyze_micro_patterns h) ->
  ptype p = "micro_double_pattern" \/ ptype p = "micro_alternation".
Proof.
  unfold analyze_micro_patterns. intros H.
  destruct (Nat.ltb _ 6); [contradiction|].
  apply in_app_or in H. destruct H as [H|H].
  - destruct (Nat.leb 2 _); [|contradiction]. destruct H as [<-|[]]. auto.
  - destruct (Nat.leb 6 _); [|contradiction].
    destruct (Nat.leb 4 _); [|contradiction]. destruct H as [<-|[]]. auto.
Qed.

Lemma hidden_types (h : history) (p : Pattern) :
  In p (detect_hidden_cycles h) -> ptype p = "hidden_cycle".
Proof.
  unfold detect_hidden_cycles. intros H.
  destruct (Nat.ltb _ 12); [contradiction|].
  apply in_flat_map in H. destruct H as [L [_ Hp]].
  destruct (hidden_cycle_for_spec _ _ _ Hp) as [pat [n [T _]]]. exact T.
Qed.

Lemma compensation_types (h : history) (p : Pattern) :
  In p (analyze_compensation_patterns h) ->
  ptype p = "artificial_balance"
  \/ (ptype p = "compensation_pending"
      /\ (favored_color p = Some "C" \/ favored_color p = Some "V")).
Proof.
  unfold analyze_compensation_patterns. intros H.
  destruct (Nat.ltb _ 20); [contradiction|].
  apply in_flat_map in H. destruct H as [W [_ Hp]].
  unfold compensation_window in Hp. destruct (Nat.leb W _); [|contradiction].
  apply in_app_or in Hp. destruct Hp as [Hp|Hp].
  - destruct (_ && _); [|contradiction]. destruct Hp as [<-|[]]. auto.
  - destruct (qlt_bool _ _); [|contradiction]. destruct Hp as [<-|[]]. simpl.
    right. split; [reflexivity|]. destruct (Nat.ltb _ _); auto.
Qed.

Lemma ties_types (h : history) (p : Pattern) :
  In p (analyze_strategic_ties h) ->
  ptype p = "strategic_tie_after_sequence" \/ ptype p = "strategic_tie_before_reversal".
Proof.
  unfold analyze_strategic_ties. intros H.
  destruct (Nat.ltb _ 8); [contradiction|].
  apply in_flat_map in H. destruct H as [pos [_ Hp]].
  unfold strategic_ties_at in Hp. destruct (Nat.leb 3 pos); [|contradiction].
  apply in_app_or in Hp. destruct Hp as [Hp|Hp].
  - destruct (_ && _); [|contradiction]. destruct Hp as [<-|[]]. auto.
  - destruct (_ && _); [|contradiction]. destruct (negb _); [|contradiction].
    destruct Hp as [<-|[]]. auto.
Qed.

Lemma analyze_pending_from (h : history) (p : Pattern) :
  In p (a_patterns (analyze h)) -> ptype p = "compensation_pending" ->
  In p (analyze_compensation_patterns h).
Proof.
  simpl. intros H T.
  apply in_app_or in H. destruct H as [H|H].
  { destruct (micro_types _ _ H) as [E|E]; rewrite E in T; discriminate. }
  apply in_app_or in H. destruct H as [H|H].
  { rewrite (hidden_types _ _ H) in T. discriminate. }
  apply in_app_or in H. destruct H as [H|H]; [exact H|].
  destruct (ties_types _ _ H) as [E|E]; rewrite E in T; discriminate.
Qed.

Lemma analyze_cycle_from (h : history) (p : Pattern) :
  In p (a_patterns (analyze h)) -> ptype p = "hidden_cycle" ->
  In p (detect_hidden_cycles h).
Proof.
  simpl. intros H T.
  apply in_app_or in H. destruct H as [H|H].
  { destruct (micro_types _ _ H) as [E|E]; rewrite E in T; discriminate. }
  apply in_app_or in H. destruct H as [H|H]; [exact H|].
  apply in_app_or in H. destruct H as [H|H].
  - destruct (compensation_types _ _ H) as [E|[E _]]; rewrite E in T; discriminate.
  - destruct (ties_types _ _ H) as [E|E]; rewrite E in T; discriminate.
Qed.

(** *** Branch structure of make_prediction *)

Definition high_prediction : Prediction :=
  mkPrediction None 0 "Manipulacao alta - Evitar apostas" "AGUARDAR NORMALIZACAO".

Lemma make_prediction_cases (h : history) (ps : list Pattern)
  (risk : RiskAssessment) (manipulation : ManipulationAssessment) :
  let pr := make_prediction h ps risk manipulation in
  ((rlevel risk = "critical" \/ mlevel manipulation = "critical") /\ pr = stop_prediction)
  \/ (rlevel risk <> "critical" /\ mlevel manipulation <> "critical"
      /\ mlevel manipulation = "high" /\ pr = high_prediction)
  \/ (rlevel risk <> "critical" /\ mlevel manipulation <> "critical"
      /\ mlevel manipulation <> "high"
      /\ ((exists cp, In cp ps /\ ptype cp = "compensation_pending"
            /\ pr = mkPrediction (favored_color cp)
                      (qmin (qnat 75) (qnat 55 + strength cp * qnat 20)%Q)
                      "Compensacao estatistica esperada" "APOSTAR COMPENSACAO")
          \/ (exists cyc pat c, In cyc ps /\ is_cycle_candidate cyc = true
              /\ ppattern cyc = Some pat /\ predict_next_in_cycle h pat = Some c
              /\ pr = mkPrediction (Some c)
                        (qmin (qnat 70) (qnat (50 + get0 (repetitions cyc) * 5)))
                        "Ciclo detectado" "SEGUIR CICLO")
          \/ pr = fallback_prediction h)).
Proof.
  cbv zeta. unfold make_prediction.
  destruct (String.eqb (rlevel risk) "critical") eqn:Rc.
  { left. split; [left; apply String.eqb_eq; exact Rc|reflexivity]. }
  destruct (String.eqb (mlevel manipulation) "critical") eqn:Mc.
  { left. split; [right; apply String.eqb_eq; exact Mc|reflexivity]. }
  apply String.eqb_neq in Rc, Mc. simpl.
  destruct (String.eqb (mlevel manipulation) "high") eqn:Mh.
  { right; left. repeat split; try assumption. apply String.eqb_eq; exact Mh. }
  apply String.eqb_neq in Mh. right; right. repeat split; try assumption.
  destruct (find (fun p => String.eqb (ptype p) "compensation_pending") ps) as [cp|] eqn:F.
  - apply find_some in F as [Fi Ft]. apply String.eqb_eq in Ft.
    destruct (both_low risk manipulation).
    + left. exists cp. auto.
    + right. unfold cycle_prediction.
      destruct (find is_cycle_candidate ps) as [cyc|] eqn:G; [|right; reflexivity].
      apply find_some in G as [Gi Gt].
      destruct (both_low risk manipulation); [|right; reflexivity].
      destruct (ppattern cyc) as [pat|] eqn:Pp; [|right; reflexivity].
      destruct (predict_next_in_cycle h pat) as [c|] eqn:Pn; [|right; reflexivity].
      destruct (String.eqb c ""); [right; reflexivity|].
      left. exists cyc, pat, c. auto.
  - right. unfold cycle_prediction.
    destruct (find is_cycle_candidate ps) as [cyc|] eqn:G; [|right; reflexivity].
    apply find_some in G as [Gi Gt].
    destruct (both_low risk manipulation); [|right; reflexivity].
    destruct (ppattern cyc) as [pat|] eqn:Pp; [|right; reflexivity].
    destruct (predict_next_in_cycle h pat) as [c|] eqn:Pn; [|right; reflexivity].
    destruct (String.eqb c ""); [right; reflexivity|].
    left. exists cyc, pat, c. auto.
Qed.

Lemma qmin_le_r (a b : Q) : (qmin a b <= b)%Q.
Proof.
  unfold qmin. destruct (qlt_bool b a) eqn:E; [apply Qle_refl|].
  apply qlt_bool_false in E. exact E.
Qed.

Lemma qmin_le_l (a b : Q) : (qmin a b <= a)%Q.
Proof.
  unfold qmin. destruct (qlt_bool b a) eqn:E; [|apply Qle_refl].
  apply qlt_bool_true in E. apply Qlt_le_weak, E.
Qed.

Lemma qmin_nonneg (a b : Q) : (0 <= a)%Q -> (0 <= b)%Q -> (0 <= qmin a b)%Q.
Proof. unfold qmin. destruct (qlt_bool b a); auto. Qed.

Lemma qnat_nonneg (n : nat) : (0 <= qnat n)%Q.
Proof. unfold qnat, Qle. simpl. lia. Qed.

Lemma fallback_shape (h : history) :
  (color (fallback_prediction h) = None /\ confidence (fallback_prediction h) = 0%Q
   /\ non_empate h = [])
  \/ (exists c, color (fallback_prediction h) = Some c /\ In c (non_empate h)
      /\ (0 <= confidence (fallback_prediction h) <= qnat 75)%Q).
Proof.
  unfold fallback_prediction.
  destruct (non_empate h) as [|r t] eqn:N; [left; auto|].
  destruct (Counter (r :: t)) as [|x rest] eqn:C.
  { exfalso. exact (Counter_nonempty (r :: t) ltac:(discriminate) C). }
  destruct (max_by_count x rest) as [mc count] eqn:M.
  right. exists mc. simpl. split; [reflexivity|]. split.
  - pose proof (max_by_count_in x rest) as I. rewrite M, <- C in I.
    exact (Counter_key_in _ _ _ I).
  - split; [|apply qmin_le_r]. apply qmin_nonneg; [|apply qnat_nonneg].
    apply Qmult_le_0_compat; [|apply qnat_nonneg]. unfold qdiv.
    apply Qle_shift_div_l; [unfold qnat, Qlt; simpl; lia|].
    rewrite Qmult_0_l. apply qnat_nonneg.
Qed.

Lemma predict_next_some (h : history) (pat c : string) :
  predict_next_in_cycle h pat = Some c ->
  non_empate h <> [] /\ exists k, char_at pat k = Some c.
Proof.
  unfold predict_next_in_cycle. intros H.
  destruct (String.eqb pat "" || _) eqn:B; [discriminate|].
  apply orb_false_iff in B as [_ B]. split.
  - destruct (non_empate h); [discriminate|discriminate].
  - cbv zeta in H. destruct (Nat.ltb _ _); [eauto|discriminate].
Qed.

(** The prediction of [analyze] has a confidence between 0 and 75. *)
Theorem analyze_confidence_bounds (h : history) :
  (0 <= confidence (a_prediction (analyze h)) <= qnat 75)%Q.
Proof.
  pose proof (make_prediction_cases h (a_patterns (analyze h)) (a_risk (analyze h))
                (a_manipulation (analyze h))) as C. cbv zeta in C.
  change (make_prediction h (a_patterns (analyze h)) (a_risk (analyze h))
            (a_manipulation (analyze h))) with (a_prediction (analyze h)) in C.
  destruct C as [[_ E]|[[_ [_ [_ E]]]|[_ [_ [_ [[cp [I [T E]]]|[[cyc [pat [c [_ [_ [_ [_ E]]]]]]]|E]]]]]]];
    rewrite E; simpl.
  - split; discriminate.
  - split; discriminate.
  - split; [|apply qmin_le_l].
    destruct (analyze_strength h cp I) as [S0 _].
    apply qmin_nonneg; [apply qnat_nonneg|].
    apply (Qle_trans _ (0 + 0)%Q); [apply Qle_refl|].
    apply Qplus_le_compat; [apply qnat_nonneg|].
    apply Qmult_le_0_compat; [exact S0|apply qnat_nonneg].
  - split; [apply qmin_nonneg; apply qnat_nonneg|].
    apply Qle_trans with (qnat 70); [|apply qnat_le; lia].
    unfold qmin. destruct (qlt_bool _ _) eqn:Q; [|apply Qle_refl].
    apply qlt_bool_true in Q. apply Qlt_le_weak, Q.
  - destruct (fallback_shape h) as [[_ [F _]]|[c [_ [_ F]]]].
    + rewrite F. split; discriminate.
    + exact F.
Qed.

Lemma analyze_short_no_pending (h : history) :
  non_empate h = [] -> analyze_compensation_patterns h = [].
Proof. unfold analyze_compensation_patterns. intros ->. reflexivity. Qed.

(** The prediction of [analyze] has no color exactly when the risk or the
    manipulation is critical, the manipulation is high, or every value of
    the history is a tie. *)
Theorem analyze_no_color_iff (h : history) :
  color (a_prediction (analyze h)) = None
  <-> (rlevel (a_risk (analyze h)) = "critical" \/ mlevel (a_manipulation (analyze h)) = "critical"
       \/ mlevel (a_manipulation (analyze h)) = "high" \/ non_empate h = []).
Proof.
  pose proof (make_prediction_cases h (a_patterns (analyze h)) (a_risk (analyze h))
                (a_manipulation (analyze h))) as C. cbv zeta in C.
  change (make_prediction h (a_patterns (analyze h)) (a_risk (analyze h))
            (a_manipulation (analyze h))) with (a_prediction (analyze h)) in C.
  destruct C as [[K E]|[[R [M [H E]]]|[R [M [H [[cp [I [T E]]]|[[cyc [pat [c [I [T [P [N E]]]]]]]|E]]]]]]];
    rewrite E; cbn [color stop_prediction high_prediction].
  - split; [intros _; tauto|reflexivity].
  - split; [intros _; tauto|reflexivity].
  - pose proof (analyze_pending_from h cp I T) as I'.
    destruct (compensation_types h cp I') as [T'|[_ [F|F]]]; [congruence| |];
      rewrite F; (split; [discriminate|]);
      (intros [X|[X|[X|X]]]; [congruence|congruence|congruence|]);
      rewrite (analyze_short_no_pending h X) in I'; contradiction.
  - split; [discriminate|].
    destruct (predict_next_some h pat c N) as [NE _].
    intros [X|[X|[X|X]]]; congruence.
  - destruct (fallback_shape h) as [[F [_ NE]]|[c [F _]]]; rewrite F.
    + split; [intros _; auto|reflexivity].
    + split; [discriminate|].
      destruct (fallback_shape h) as [[F' [_ NE]]|_]; [congruence|].
      intros [X|[X|[X|X]]]; try congruence.
      unfold fallback_prediction in F. rewrite X in F. discriminate.
Qed.


(** *** Predicted colors on histories over C, V, E *)

Definition valid_history (h : history) : Prop :=
  Forall (fun r => r = "C" \/ r = "V" \/ r = "E") h.

Definition is_CV (s : string) : Prop := s = "C" \/ s = "V".

Lemma valid_non_empate (h : history) : valid_history h -> Forall is_CV (non_empate h).
Proof.
  unfold valid_history, non_empate, is_CV. intros V.
  induction V as [|x t Hx Ht IH]; simpl; [constructor|].
  destruct (is_tie x) eqn:E; simpl; [exact IH|].
  constructor; [|exact IH].
  destruct Hx as [Hx|[Hx|Hx]]; auto. subst. discriminate.
Qed.

Lemma in_firstn_l {A} (n : nat) (l : list A) (x : A) : In x (firstn n l) -> In x l.
Proof.
  revert l. induction n as [|n IH]; intros [|y l]; simpl; try tauto.
  intros [->|H]; [left; reflexivity|right; apply IH, H].
Qed.

Lemma in_skipn_l {A} (n : nat) (l : list A) (x : A) : In x (skipn n l) -> In x l.
Proof.
  revert l. induction n as [|n IH]; intros [|y l]; simpl; try tauto.
  intros H. right. apply IH, H.
Qed.

Lemma Forall_slice {A} (P : A -> Prop) (a b : nat) (l : list A) :
  Forall P l -> Forall P (slice a b l).
Proof.
  rewrite !Forall_forall. unfold slice. intros H x Hx.
  apply H. eapply in_skipn_l, in_firstn_l, Hx.
Qed.

Lemma concat_CV (l : list string) (k : nat) (ch : ascii) :
  Forall is_CV l -> String.get k (String.concat "" l) = Some ch ->
  ch = "C"%char \/ ch = "V"%char.
Proof.
  intros H. revert k. induction H as [|x t Hx Ht IH]; intros k G.
  - simpl in G. destruct k; discriminate.
  - destruct t as [|y t'].
    + simpl in G. destruct Hx as [->| ->]; destruct k as [|[|k]]; simpl in G;
        try discriminate; injection G as <-; auto.
    + change (String.concat "" (x :: y :: t')) with (x ++ "" ++ String.concat "" (y :: t')) in G.
      destruct Hx as [->| ->]; destruct k as [|k]; simpl in G;
        try (injection G as <-; auto); exact (IH k G).
Qed.

Lemma cycle_pattern_CV (h : history) (p : Pattern) (pat : string) :
  valid_history h -> In p (detect_hidden_cycles h) -> ppattern p = Some pat ->
  forall k ch, String.get k pat = Some ch -> ch = "C"%char \/ ch = "V"%char.
Proof.
  intros V I P k ch G.
  unfold detect_hidden_cycles in I. destruct (Nat.ltb _ 12); [contradiction|].
  apply in_flat_map in I. destruct I as [L [_ Hp]].
  destruct (hidden_cycle_for_spec _ _ _ Hp) as [pat' [n [_ [_ [P' [_ [N2 [Nc _]]]]]]]].
  rewrite P in P'. injection P' as <-.
  assert (Hin : In pat (cycles_of (non_empate h) L)).
  { assert (Pos : 0 < count_s pat (cycles_of (non_empate h) L)) by lia.
    unfold count_s in Pos. destruct (filter (String.eqb pat) _) as [|w ws] eqn:F;
      [simpl in Pos; lia|].
    assert (Iw : In w (filter (String.eqb pat) (cycles_of (non_empate h) L)))
      by (rewrite F; left; reflexivity).
    apply filter_In in Iw as [Iw Ew]. apply String.eqb_eq in Ew. subst. exact Iw. }
  unfold cycles_of in Hin. apply in_map_iff in Hin. destruct Hin as [i [Ei _]].
  rewrite <- Ei in G. eapply concat_CV; [|exact G].
  apply Forall_slice, valid_non_empate, V.
Qed.

Lemma analyze_color_CV_aux (h : history) (c : string) :
  valid_history h -> color (a_prediction (analyze h)) = Some c -> c = "C" \/ c = "V".
Proof.
  intros V.
  pose proof (make_prediction_cases h (a_patterns (analyze h)) (a_risk (analyze h))
                (a_manipulation (analyze h))) as C. cbv zeta in C.
  change (make_prediction h (a_patterns (analyze h)) (a_risk (analyze h))
            (a_manipulation (analyze h))) with (a_prediction (analyze h)) in C.
  destruct C as [[K E]|[[R [M [H E]]]|[R [M [H [[cp [I [T E]]]|[[cyc [pat [c' [I [T [P [N E]]]]]]]|E]]]]]]];
    rewrite E; cbn [color stop_prediction high_prediction]; intros Hc; try discriminate.
  - pose proof (analyze_pending_from h cp I T) as I'.
    destruct (compensation_types h cp I') as [T'|[_ [F|F]]]; [congruence| |];
      rewrite F in Hc; injection Hc as <-; auto.
  - injection Hc as <-.
    apply andb_true_iff in T as [T _]. apply String.eqb_eq in T.
    pose proof (analyze_cycle_from h cyc I T) as I'.
    destruct (predict_next_some h pat c' N) as [_ [k K]].
    unfold char_at in K. destruct (String.get k pat) as [ch|] eqn:G; [|discriminate].
    injection K as <-.
    destruct (cycle_pattern_CV h cyc pat V I' P k ch G) as [->| ->]; auto.
  - destruct (fallback_shape h) as [[F _]|[c0 [F [Ic _]]]]; rewrite F in Hc; [discriminate|].
    injection Hc as <-.
    pose proof (proj1 (Forall_forall _ _) (valid_non_empate h V) c0 Ic). exact H0.
Qed.

(** On a history whose values are all C, V or E, the prediction of
    [analyze], when it has a color, bets on C or V (never on a tie). *)
Theorem analyze_color_CV (h : history) (c : string) :
  valid_history h -> color (a_prediction (analyze h)) = Some c -> c = "C" \/ c = "V".
Proof. exact (analyze_color_CV_aux h c). Qed.

Definition h_x6 : history := ["C"; "C"; "V"; "E"; "V"; "C"; "C"; "E"; "V"].

Lemma analyze_color_CV_witness :
  valid_history h_x6 /\ color (a_prediction (analyze h_x6)) = Some "C" /\ ("C" = "C" \/ "C" = "V").
Proof.
  assert (V : valid_history h_x6) by (repeat constructor; auto).
  assert (Cc : color (a_prediction (analyze h_x6)) = Some "C") by (vm_compute; reflexivity).
  split; [exact V|]. split; [exact Cc|]. exact (analyze_color_CV h_x6 "C" V Cc).
Defined.

(** *** Scorers *)

Lemma risk_step_shift (s : nat) (f : list string) (p : Pattern) :
  risk_step (s, f) p
  = (s + fst (risk_step (0, []) p), (f ++ snd (risk_step (0, []) p))%list).
Proof.
  unfold risk_step.
  repeat match goal with |- context [if ?b then _ else _] => destruct b end;
    simpl; rewrite ?app_nil_r, ?Nat.add_0_r; reflexivity.
Qed.

Lemma risk_fold_shift (ps : list Pattern) (s : nat) (f : list string) :
  fold_left risk_step ps (s, f)
  = (s + fst (fold_left risk_step ps (0, [])), (f ++ snd (fold_left risk_step ps (0, [])))%list).
Proof.
  revert s f. induction ps as [|p ps IH]; intros s f; cbn [fold_left].
  - simpl. rewrite Nat.add_0_r, app_nil_r. reflexivity.
  - rewrite (risk_step_shift s f p), (risk_step_shift 0 [] p), IH.
    rewrite (IH (0 + _)). cbn [fst snd]. rewrite <- app_assoc. f_equal. lia.
Qed.

Lemma manipulation_step_shift (s : nat) (f : list string) (p : Pattern) :
  manipulation_step (s, f) p
  = (s + fst (manipulation_step (0, []) p), (f ++ snd (manipulation_step (0, []) p))%list).
Proof.
  unfold manipulation_step.
  repeat match goal with |- context [if ?b then _ else _] => destruct b end;
    simpl; rewrite ?app_nil_r, ?Nat.add_0_r; reflexivity.
Qed.

Lemma manipulation_fold_shift (ps : list Pattern) (s : nat) (f : list string) :
  fold_left manipulation_step ps (s, f)
  = (s + fst (fold_left manipulation_step ps (0, [])),
     (f ++ snd (fold_left manipulation_step ps (0, [])))%list).
Proof.
  revert s f. induction ps as [|p ps IH]; intros s f; cbn [fold_left].
  - simpl. rewrite Nat.add_0_r, app_nil_r. reflexivity.
  - rewrite (manipulation_step_shift s f p), (manipulation_step_shift 0 [] p), IH.
    rewrite (IH (0 + _)). cbn [fst snd]. rewrite <- app_assoc. f_equal. lia.
Qed.

Lemma min100_add (a b : nat) :
  Nat.min (a + b) 100 = Nat.min (Nat.min a 100 + Nat.min b 100) 100.
Proof. lia. Qed.

(** Both scorers compose over concatenated pattern lists: the factors (signs)
    of [ps1 ++ ps2] are those of [ps1] followed by those of [ps2], and the
    score is the sum of the two scores capped at 100. *)
Theorem scorers_append (ps1 ps2 : list Pattern) (risk : RiskAssessment) :
  factors (assess_risk (ps1 ++ ps2)) = (factors (assess_risk ps1) ++ factors (assess_risk ps2))%list
  /\ rscore (assess_risk (ps1 ++ ps2))
     = Nat.min (rscore (assess_risk ps1) + rscore (assess_risk ps2)) 100
  /\ signs (detect_manipulation (ps1 ++ ps2) risk)
     = (signs (detect_manipulation ps1 risk) ++ signs (detect_manipulation ps2 risk))%list
  /\ mscore (detect_manipulation (ps1 ++ ps2) risk)
     = Nat.min (mscore (detect_manipulation ps1 risk) + mscore (detect_manipulation ps2 risk)) 100.
Proof.
  unfold assess_risk, detect_manipulation. rewrite !fold_left_app.
  destruct (fold_left risk_step ps1 (0, [])) as [r1 f1] eqn:R1.
  rewrite risk_fold_shift.
  destruct (fold_left risk_step ps2 (0, [])) as [r2 f2] eqn:R2.
  destruct (fold_left manipulation_step ps1 (0, [])) as [m1 g1] eqn:M1.
  rewrite manipulation_fold_shift.
  destruct (fold_left manipulation_step ps2 (0, [])) as [m2 g2] eqn:M2.
  simpl. repeat split; apply min100_add.
Qed.

Lemma risk_level_cap (s : nat) : risk_level (Nat.min s 100) = risk_level s.
Proof.
  destruct (Nat.le_ge_cases s 100) as [L|L].
  - rewrite Nat.min_l by exact L. reflexivity.
  - rewrite Nat.min_r by exact L. unfold risk_level.
    assert (Nat.leb 80 s = true) as -> by (apply Nat.leb_le; lia). reflexivity.
Qed.

Lemma manipulation_level_cap (s : nat) :
  manipulation_level (Nat.min s 100) = manipulation_level s.
Proof.
  destruct (Nat.le_ge_cases s 100) as [L|L].
  - rewrite Nat.min_l by exact L. reflexivity.
  - rewrite Nat.min_r by exact L. unfold manipulation_level.
    assert (Nat.leb 80 s = true) as -> by (apply Nat.leb_le; lia). reflexivity.
Qed.

(** The level each scorer reports is the one its reported (capped) score
    falls into: critical from 80, high from 55 (risk) or 60 (manipulation),
    medium from 30 (risk) or 35 (manipulation), low below. *)
Theorem scorer_level_matches_score (ps : list Pattern) (risk : RiskAssessment) :
  rlevel (assess_risk ps) = risk_level (rscore (assess_risk ps))
  /\ mlevel (detect_manipulation ps risk) = manipulation_level (mscore (detect_manipulation ps risk)).
Proof.
  unfold assess_risk, detect_manipulation.
  destruct (fold_left risk_step ps (0, [])) as [r f].
  destruct (fold_left manipulation_step ps (0, [])) as [m g].
  simpl. rewrite risk_level_cap, manipulation_level_cap. split; reflexivity.
Qed.

(** *** The session history of main *)

Lemma valid_app (h l : history) : valid_history h -> valid_history l -> valid_history (h ++ l)%list.
Proof. unfold valid_history. intros A B. apply Forall_app. auto. Qed.

Lemma valid_removelast (h : history) : valid_history h -> valid_history (removelast h).
Proof.
  unfold valid_history. induction 1 as [|x t Hx Ht IH]; simpl; [constructor|].
  destruct t; [constructor|]. constructor; assumption.
Qed.

Lemma main_history_valid (h : history) (b : Buttons) :
  valid_history h -> valid_history (main_history h b).
Proof.
  intros V. unfold main_history.
  assert (A : forall h' x, valid_history h' -> (x = "C" \/ x = "V" \/ x = "E") ->
            valid_history (h' ++ [x])%list).
  { intros h' x Vh Hx. apply valid_app; [exact Vh|]. constructor; [exact Hx|constructor]. }
  set (h1 := if btn_c b then (h ++ ["C"])%list else h).
  assert (V1 : valid_history h1) by (unfold h1; destruct (btn_c b); auto).
  set (h2 := if btn_v b then (h1 ++ ["V"])%list else h1).
  assert (V2 : valid_history h2) by (unfold h2; destruct (btn_v b); auto).
  set (h3 := if btn_e b then (h2 ++ ["E"])%list else h2).
  assert (V3 : valid_history h3) by (unfold h3; destruct (btn_e b); auto).
  set (h4 := if btn_clear b then [] else h3).
  assert (V4 : valid_history h4) by (unfold h4; destruct (btn_clear b); [constructor|exact V3]).
  destruct (btn_undo b); [|exact V4].
  destruct h4; [exact V4|]. apply valid_removelast, V4.
Qed.

Lemma history_after_valid (runs : list Buttons) : valid_history (history_after runs).
Proof.
  unfold history_after.
  assert (G : forall h, valid_history h -> valid_history (fold_left main_history runs h)).
  { induction runs as [|b runs IH]; intros h V; simpl; [exact V|].
    apply IH, main_history_valid, V. }
  apply G. constructor.
Qed.

(** Every history the buttons of [main] can build from a fresh session holds
    only C, V and E; the result [main] displays after any run is the
    analysis of the new history exactly when that history is non-empty, and
    its prediction, when it has a color, bets on C or V. *)
Theorem main_run_sound (runs : list Buttons) (b : Buttons) :
  let session := Some (history_after runs) in
  valid_history (fst (main_run session b))
  /\ (snd (main_run session b) = None <-> fst (main_run session b) = [])
  /\ (forall a, snd (main_run session b) = Some a ->
        a = analyze (fst (main_run session b))
        /\ forall c, color (a_prediction a) = Some c -> c = "C" \/ c = "V").
Proof.
  cbv zeta. unfold main_run. simpl session_history.
  pose proof (main_history_valid _ b (history_after_valid runs)) as V.
  destruct (main_history (history_after runs) b) as [|r t] eqn:E; simpl.
  - split; [exact V|]. split; [tauto|]. intros a Ha. discriminate.
  - split; [exact V|]. split; [split; discriminate|].
    intros a Ha. injection Ha as <-. split; [reflexivity|].
    intros c Hc. exact (analyze_color_CV_aux _ c V Hc).
Qed.

(** An undo run right after a run that appends one result restores the
    previous history, and undo on an empty history leaves it empty. *)
Theorem undo_after_append (h : history) :
  main_history (main_history h press_c) press_undo = h
  /\ main_history (main_history h press_v) press_undo = h
  /\ main_history (main_history h press_e) press_undo = h
  /\ main_history [] press_undo = [].
Proof.
  unfold main_history, press_c, press_v, press_e, press_undo. simpl.
  repeat split;
    (destruct (h ++ [_])%list eqn:E; [destruct h; discriminate|];
     rewrite <- E; apply removelast_last).
Qed.

(** A run in which "Limpar Historico" is clicked always ends with an empty
    history, whatever else was clicked. *)
Theorem clear_empties (h : history) (b : Buttons) :
  btn_clear b = true -> main_history h b = [].
Proof.
  intros C. unfold main_history. rewrite C.
  destruct (btn_undo b); reflexivity.
Qed.

Lemma clear_empties_witness :
  btn_clear (mkButtons true false false true true) = true
  /\ main_history ["C"; "V"] (mkButtons true false false true true) = [].
Proof.
  split; [reflexivity|]. apply clear_empties. reflexivity.
Defined.

(** *** Patterns reported by the analyzer *)

(** Every pattern the four detectors report has one of seven types and a
    strength between 0 and 1. *)
Theorem analyze_patterns_kinds (h : history) (p : Pattern) :
  In p (a_patterns (analyze h)) ->
  unit_strength p
  /\ In (ptype p) ["micro_double_pattern"; "micro_alternation"; "hidden_cycle";
                   "artificial_balance"; "compensation_pending";
                   "strategic_tie_after_sequence"; "strategic_tie_before_reversal"].
Proof.
  intros H. split; [exact (analyze_strength h p H)|].
  simpl in H.
  apply in_app_or in H. destruct H as [H|H].
  { destruct (micro_types _ _ H) as [E|E]; rewrite E; simpl; tauto. }
  apply in_app_or in H. destruct H as [H|H].
  { rewrite (hidden_types _ _ H). simpl; tauto. }
  apply in_app_or in H. destruct H as [H|H].
  { destruct (compensation_types _ _ H) as [E|[E _]]; rewrite E; simpl; tauto. }
  destruct (ties_types _ _ H) as [E|E]; rewrite E; simpl; tauto.
Qed.

Definition h_x9 : history := ["C"; "V"; "C"; "V"; "C"; "V"; "C"; "V"].

Definition alt_pat_x9 : Pattern :=
  mkPattern "micro_alternation" (qdiv 5 5) "critical" (qnat 90)
    None None None None None None None None None None None.

Lemma analyze_patterns_kinds_witness :
  exists p, In p (a_patterns (analyze h_x9))
  /\ unit_strength p
  /\ In (ptype p) ["micro_double_pattern"; "micro_alternation"; "hidden_cycle";
                   "artificial_balance"; "compensation_pending";
                   "strategic_tie_after_sequence"; "strategic_tie_before_reversal"].
Proof.
  assert (I : In alt_pat_x9 (a_patterns (analyze h_x9))) by (vm_compute; left; reflexivity).
  exists alt_pat_x9. split; [exact I|]. exact (analyze_patterns_kinds h_x9 _ I).
Defined.
